(** * seller-apis: reconciliation and batch dispatch

    A shallow embedding of [seller.py] (marketplace A, Ozon) and
    [market.py] (marketplace B, Yandex.Market): the quantity and price
    conversions, the stock/price list builders, the chunking generator
    [divide] and the paged enumeration of offer ids.

    Conventions.
    - A Python [str] is a [string] holding its UTF-8 bytes.  Comparing two
      strings, splitting on a full stop and keeping the characters ['0'] to
      ['9'] give the same answers on bytes as on characters, since every
      byte of a non-ASCII character is at least 128.  [int] does not: it is
      modelled on the code points decoded from the bytes.
    - A Python exception is a value of [exn] returned in [Err].
    - A list that the source mutates in place is threaded explicitly: the
      function takes the contents of the list object and returns its
      contents afterwards, also when it raises. *)

From Stdlib Require Import List String Ascii ZArith Lia Bool Arith.
From Stdlib Require Import Permutation DecimalString DecimalPos.
Import ListNotations.

Local Open Scope string_scope.
Local Open Scope Z_scope.

(** ** Python values and exceptions *)

(** The exceptions the modelled code can raise. *)
Inductive exn : Type :=
| ValueError
| TypeError
| AttributeError
| HTTPError.

Inductive result (A : Type) : Type :=
| Ok (a : A)
| Err (e : exn).

Arguments Ok {A} a.
Arguments Err {A} e.

Definition bind {A B : Type} (r : result A) (k : A -> result B) : result B :=
  match r with
  | Ok a => k a
  | Err e => Err e
  end.

Notation "x <- r ;; k" := (bind r (fun x => k))
  (at level 61, r at next level, right associativity).

(** A cell of a feed row as [pandas] hands it over: a string, an integer,
    or [None] (what [dict.get] returns for a missing key).  Floating-point
    cells are not modelled. *)
Inductive value : Type :=
| VNone
| VStr (s : string)
| VInt (z : Z).

(** One row of the feed: [watch.get("Код")], [watch.get("Количество")],
    [watch.get("Цена")]. *)
Record watch : Type := mkWatch {
  kod : value;
  kolichestvo : value;
  tsena : value
}.

(** ** [str(x)] *)

Definition py_str (v : value) : string :=
  match v with
  | VNone => "None"
  | VStr s => s
  | VInt z => NilZero.string_of_int (Z.to_int z)
  end.

(** ** [int(x)] *)

Definition is_digit (c : ascii) : bool :=
  let n := nat_of_ascii c in (48 <=? n)%nat && (n <=? 57)%nat.

(** [int] works on the characters of its argument, not on bytes: it accepts
    every Unicode decimal digit and skips Unicode white space.  The
    characters are read back from the UTF-8 bytes first. *)

Definition continuation (b : N) : bool := ((128 <=? b) && (b <? 192))%N.

(** The code points of a string, [None] when the bytes are not the UTF-8
    encoding of a sequence of characters (no Python [str] has such bytes). *)
Fixpoint code_points (s : string) : option (list N) :=
  match s with
  | EmptyString => Some []
  | String a1 r1 =>
      let b1 := N_of_ascii a1 in
      if (b1 <? 128)%N then option_map (cons b1) (code_points r1)
      else if (b1 <? 194)%N then None
      else if (b1 <? 224)%N then
        match r1 with
        | String a2 r2 =>
            let b2 := N_of_ascii a2 in
            if continuation b2
            then option_map (cons ((b1 - 192) * 64 + (b2 - 128))%N)
                            (code_points r2)
            else None
        | EmptyString => None
        end
      else if (b1 <? 240)%N then
        match r1 with
        | String a2 (String a3 r3) =>
            let b2 := N_of_ascii a2 in
            let b3 := N_of_ascii a3 in
            let c := ((b1 - 224) * 4096 + (b2 - 128) * 64 + (b3 - 128))%N in
            if continuation b2 && continuation b3 && (2048 <=? c)%N
               && negb ((55296 <=? c) && (c <=? 57343))%N
            then option_map (cons c) (code_points r3)
            else None
        | _ => None
        end
      else if (b1 <? 245)%N then
        match r1 with
        | String a2 (String a3 (String a4 r4)) =>
            let b2 := N_of_ascii a2 in
            let b3 := N_of_ascii a3 in
            let b4 := N_of_ascii a4 in
            let c := ((b1 - 240) * 262144 + (b2 - 128) * 4096
                      + (b3 - 128) * 64 + (b4 - 128))%N in
            if continuation b2 && continuation b3 && continuation b4
               && (65536 <=? c)%N && (c <=? 1114111)%N
            then option_map (cons c) (code_points r4)
            else None
        | _ => None
        end
      else None
  end.

(** The characters [int] skips around the number: tab, line feed, vertical
    tab, form feed, carriage return and space, and, beyond ASCII, the
    characters for which [str.isspace] holds.  (The ASCII separators 28 to
    31 are white space for [str.isspace] but not for [int].) *)
Definition space_code_points : list N :=
  [9; 10; 11; 12; 13; 32;
   133; 160; 5760; 8192; 8193; 8194; 8195; 8196; 8197; 8198; 8199; 8200;
   8201; 8202; 8232; 8233; 8239; 8287; 12288
  ]%N.

Definition is_space (c : N) : bool := existsb (N.eqb c) space_code_points.

(** The zero of every run of ten decimal digits of Unicode 14.0 (the
    characters with a [decimal] value, as Python 3.11 knows them): ['0'],
    Arabic-Indic zero, ..., each followed by its digits 1 to 9. *)
Definition decimal_zeros : list N :=
  [
   48; 1632; 1776; 1984; 2406; 2534; 2662; 2790; 2918; 3046; 3174; 3302;
   3430; 3558; 3664; 3792; 3872; 4160; 4240; 6112; 6160; 6470; 6608; 6784;
   6800; 6992; 7088; 7232; 7248; 42528; 43216; 43264; 43472; 43504; 43600;
   44016; 65296; 66720; 68912; 69734; 69872; 69942; 70096; 70384; 70736;
   70864; 71248; 71360; 71472; 71904; 72016; 72784; 73040; 73120; 92768;
   92864; 93008; 120782; 120792; 120802; 120812; 120822; 123200; 123632;
   125264; 130032
  ]%N.

(** [unicodedata.decimal(c)], [None] when [c] is no decimal digit. *)
Definition decimal (c : N) : option Z :=
  match find (fun z => ((z <=? c) && (c <=? z + 9))%N) decimal_zeros with
  | Some z => Some (Z.of_N (c - z))
  | None => None
  end.

Definition is_underscore (c : N) : bool := (c =? 95)%N.

Fixpoint lstrip (s : list N) : list N :=
  match s with
  | c :: r => if is_space c then lstrip r else s
  | [] => s
  end.

(** The digit run of a decimal literal.  Single underscores may separate
    digits; [prev_us] records that the previous character was one.  Returns
    the value read and the unread rest. *)
Fixpoint scan_digits (s : list N) (prev_us : bool) (acc : Z)
  : option (Z * list N) :=
  match s with
  | c :: r =>
      match decimal c with
      | Some d => scan_digits r false (10 * acc + d)
      | None =>
          if is_underscore c then
            if prev_us then None else scan_digits r true acc
          else if prev_us then None else Some (acc, s)
      end
  | [] => if prev_us then None else Some (acc, s)
  end.

(** The literal starts with a digit: no leading underscore, no empty run. *)
Definition parse_digits (s : list N) : option (Z * list N) :=
  match s with
  | c :: _ =>
      match decimal c with
      | Some _ => scan_digits s false 0
      | None => None
      end
  | [] => None
  end.

Definition split_sign (s : list N) : bool * list N :=
  match s with
  | c :: r =>
      if (c =? 43)%N then (false, r)
      else if (c =? 45)%N then (true, r)
      else (false, s)
  | [] => (false, s)
  end.

(** [int] on the characters of a string, base 10: optional white space, an
    optional sign, the digit run, optional white space, end of string. *)
Definition int_of_code_points (s : list N) : option Z :=
  let (neg, body) := split_sign (lstrip s) in
  match parse_digits body with
  | Some (v, rest) =>
      match lstrip rest with
      | [] => Some (if neg then - v else v)
      | _ :: _ => None
      end
  | None => None
  end.

(** [int(s)] for a string [s]; [None] stands for the [ValueError] Python
    raises.  The interpreter's configurable limit on the number of digits is
    not modelled. *)
Definition int_of_str (s : string) : option Z :=
  match code_points s with
  | Some cps => int_of_code_points cps
  | None => None
  end.

Definition py_int (v : value) : result Z :=
  match v with
  | VNone => Err TypeError
  | VStr s =>
      match int_of_str s with
      | Some z => Ok z
      | None => Err ValueError
      end
  | VInt z => Ok z
  end.

(** ** Quantity mapping (seller.py 216-222, market.py 197-203) *)

(** The quantity rule both [create_stocks] apply to a matched row:
<<
    count = str(watch.get("Количество"))
    if count == ">10":   stock = 100
    elif count == "1":   stock = 0
    else:                stock = int(watch.get("Количество"))
>> *)
Definition stock_count (quantity : value) : result Z :=
  let count := py_str quantity in
  if String.eqb count ">10" then Ok 100
  else if String.eqb count "1" then Ok 0
  else py_int quantity.

(** ** Price conversion (seller.py 265-284) *)

Definition is_dot (c : ascii) : bool := Ascii.eqb c "."%char.

(** [price.split(".")[0]]: everything before the first full stop, the whole
    string when there is none. *)
Fixpoint before_dot (s : string) : string :=
  match s with
  | String c r => if is_dot c then EmptyString else String c (before_dot r)
  | EmptyString => EmptyString
  end.

(** [re.sub("[^0-9]", "", s)]: drop every character outside ['0'..'9']. *)
Fixpoint keep_digits (s : string) : string :=
  match s with
  | String c r => if is_digit c then String c (keep_digits r) else keep_digits r
  | EmptyString => EmptyString
  end.

Definition price_conversion (price : string) : string :=
  keep_digits (before_dot price).

(** [price_conversion(watch.get("Цена"))]: only a [str] has [split]. *)
Definition price_conversion_value (price : value) : result string :=
  match price with
  | VStr s => Ok (price_conversion s)
  | VNone | VInt _ => Err AttributeError
  end.

(** ** Membership and removal on the list of offer ids *)

(** [x in offer_ids] *)
Definition py_in (x : string) (offer_ids : list string) : bool :=
  existsb (String.eqb x) offer_ids.

(** [offer_ids.remove(x)]: drops the first element equal to [x].  The source
    calls it only under [x in offer_ids], so the [ValueError] for an absent
    element cannot occur and the list is returned unchanged in that case. *)
Fixpoint list_remove (x : string) (offer_ids : list string) : list string :=
  match offer_ids with
  | [] => []
  | y :: rest => if String.eqb y x then rest else y :: list_remove x rest
  end.

(** ** The stock list builder shared by both marketplaces
       (seller.py 213-227, market.py 193-233) *)

Section CreateStocks.

Context {entry : Type}.

(** The dictionary appended for an offer id and a count; the two
    marketplaces differ only in its shape. *)
Variable stock_entry : string -> Z -> entry.

(** The first loop, [for watch in watch_remnants], on the pair of the
    [stocks] list built so far and the contents of [offer_ids].  When
    [int] raises, the removals done so far stay in [offer_ids]. *)
Fixpoint matched_phase (watch_remnants : list watch)
         (stocks : list entry) (offer_ids : list string)
  : result (list entry) * list string :=
  match watch_remnants with
  | [] => (Ok stocks, offer_ids)
  | watch :: rest =>
      if py_in (py_str (kod watch)) offer_ids then
        match stock_count (kolichestvo watch) with
        | Ok stock =>
            matched_phase rest
              (stocks ++ [stock_entry (py_str (kod watch)) stock])
              (list_remove (py_str (kod watch)) offer_ids)
        | Err e => (Err e, offer_ids)
        end
      else matched_phase rest stocks offer_ids
  end.

(** The second loop, [for offer_id in offer_ids]. *)
Definition unmatched_phase (stocks : list entry) (offer_ids : list string)
  : list entry :=
  fold_left (fun acc offer_id => (acc ++ [stock_entry offer_id 0])%list)
            offer_ids stocks.

(** The whole function: the value returned (or the exception raised) and
    the contents of the caller's [offer_ids] afterwards. *)
Definition create_stocks_with (watch_remnants : list watch)
           (offer_ids : list string) : result (list entry) * list string :=
  match matched_phase watch_remnants [] offer_ids with
  | (Ok stocks, remaining) => (Ok (unmatched_phase stocks remaining), remaining)
  | (Err e, remaining) => (Err e, remaining)
  end.

End CreateStocks.

(** ** The price list builder *)

Section CreatePrices.

Context {entry : Type}.

(** The dictionary built for a matched row; evaluating it may raise. *)
Variable price_entry : watch -> result entry.

Fixpoint prices_loop (watch_remnants : list watch) (prices : list entry)
         (offer_ids : list string) : result (list entry) :=
  match watch_remnants with
  | [] => Ok prices
  | watch :: rest =>
      if py_in (py_str (kod watch)) offer_ids then
        price <- price_entry watch ;;
        prices_loop rest (prices ++ [price]) offer_ids
      else prices_loop rest prices offer_ids
  end.

Definition create_prices_with (watch_remnants : list watch)
           (offer_ids : list string) : result (list entry) :=
  prices_loop watch_remnants [] offer_ids.

End CreatePrices.

(** ** Chunking (seller.py 287-313) and the dispatch loops *)

(** [len(range(0, stop, step))] for a positive [step]. *)
Definition range_len (stop step : Z) : nat :=
  Z.to_nat ((stop + step - 1) / step).

(** [range(0, stop, step)] *)
Definition py_range (stop step : Z) : list Z :=
  map (fun k => Z.of_nat k * step) (seq 0 (range_len stop step)).

(** [lst[i:j]] for [0 <= i <= j]. *)
Definition slice {A : Type} (lst : list A) (i j : Z) : list A :=
  firstn (Z.to_nat (j - i)) (skipn (Z.to_nat i) lst).

(** [list(divide(lst, n))]: the chunks the generator yields, or the
    [ValueError] it raises when first advanced. *)
Definition divide {A : Type} (lst : list A) (n : Z) : result (list (list A)) :=
  if n <=? 0 then Err ValueError
  else Ok (map (fun i => slice lst i (i + n))
               (py_range (Z.of_nat (List.length lst)) n)).

(** [for chunk in chunks: submit(chunk)]: the outcome and the calls made, in
    order.  A failing call ends the loop. *)
Fixpoint submit_each {A : Type} (submit : list A -> result unit)
         (chunks : list (list A)) : result unit * list (list A) :=
  match chunks with
  | [] => (Ok tt, [])
  | chunk :: rest =>
      match submit chunk with
      | Ok _ => let (r, calls) := submit_each submit rest in (r, chunk :: calls)
      | Err e => (Err e, [chunk])
      end
  end.

(** [for some in list(divide(lst, n)): submit(some)], the loop every upload
    path runs (seller.py 338, 365, 395, 398; market.py 298, 327, 365, 374). *)
Definition dispatch {A : Type} (submit : list A -> result unit)
           (lst : list A) (n : Z) : result unit * list (list A) :=
  match divide lst n with
  | Ok chunks => submit_each submit chunks
  | Err e => (Err e, [])
  end.

(** ** Paged enumeration: running a [while True] loop

    The loops of [get_offer_ids] end only when the remote answers so; they
    are run with a bound on the number of fetches, [None] meaning that the
    bound was reached before the loop ended.  The remote is a state of type
    [remote] that every fetch may change. *)

(** * Marketplace A: seller.py *)

Module Seller.

Module Product.
Record t : Type := mk { offer_id : string }.
End Product.

(** The [result] object of one [/v2/product/list] answer. *)
Module Page.
Record t : Type := mk {
  items : list Product.t;
  total : Z;
  last_id : string
}.
End Page.

Module Stock.
Record t : Type := mk { offer_id : string; stock : Z }.
End Stock.

Module Price.
Record t : Type := mk {
  auto_action_enabled : string;
  currency_code : string;
  offer_id : string;
  old_price : string;
  price : string
}.
End Price.

Section Enumerate.

Context {remote : Type}.

(** [get_product_list(last_id, client_id, seller_token)] for fixed
    credentials: the page or the exception, and the remote afterwards. *)
Variable get_product_list : string -> remote -> result Page.t * remote.

(** The body of [while True] (lines 73-79), at most [fuel] times. *)
Fixpoint get_offer_ids_loop (fuel : nat) (last_id : string)
         (product_list : list Product.t) (r : remote)
  : option (result (list Product.t)) :=
  match fuel with
  | O => None
  | S fuel' =>
      match get_product_list last_id r with
      | (Ok some_prod, r') =>
          let product_list := (product_list ++ Page.items some_prod)%list in
          if Page.total some_prod =? Z.of_nat (List.length product_list)
          then Some (Ok product_list)
          else get_offer_ids_loop fuel' (Page.last_id some_prod) product_list r'
      | (Err e, _) => Some (Err e)
      end
  end.

Definition get_offer_ids (fuel : nat) (r : remote)
  : option (result (list string)) :=
  match get_offer_ids_loop fuel "" [] r with
  | Some (Ok product_list) => Some (Ok (map Product.offer_id product_list))
  | Some (Err e) => Some (Err e)
  | None => None
  end.

(** The pagination protocol of marketplace A, as a run of the remote:
    [serves last_id seen r pages] holds when the fetches starting with
    cursor [last_id], after [seen] items were collected, answer with
    [pages], each page but the last reporting a [total] different from
    the number of items collected up to it, and the last one reporting
    exactly that number. *)
Inductive serves : string -> nat -> remote -> list Page.t -> Prop :=
| serves_last last_id seen r some_prod r' :
    get_product_list last_id r = (Ok some_prod, r') ->
    Page.total some_prod
      = Z.of_nat (seen + List.length (Page.items some_prod)) ->
    serves last_id seen r [some_prod]
| serves_more last_id seen r some_prod r' pages :
    get_product_list last_id r = (Ok some_prod, r') ->
    Page.total some_prod
      <> Z.of_nat (seen + List.length (Page.items some_prod)) ->
    serves (Page.last_id some_prod)
           (seen + List.length (Page.items some_prod)) r' pages ->
    serves last_id seen r (some_prod :: pages).

End Enumerate.

(** The offer ids carried by a run of pages. *)
Definition page_ids (pages : list Page.t) : list string :=
  map Product.offer_id (List.concat (map Page.items pages)).

Definition stock_entry (offer_id : string) (stock : Z) : Stock.t :=
  Stock.mk offer_id stock.

Definition create_stocks (watch_remnants : list watch) (offer_ids : list string)
  : result (list Stock.t) * list string :=
  create_stocks_with stock_entry watch_remnants offer_ids.

Definition price_entry (watch : watch) : result Price.t :=
  price <- price_conversion_value (tsena watch) ;;
  Ok (Price.mk "UNKNOWN" "RUB" (py_str (kod watch)) "0" price).

Definition create_prices (watch_remnants : list watch) (offer_ids : list string)
  : result (list Price.t) :=
  create_prices_with price_entry watch_remnants offer_ids.

(** [upload_prices] up to its return value (lines 336-340), given the
    list a fresh [get_offer_ids] returned and a remote that accepts every
    batch. *)
Definition upload_prices (watch_remnants : list watch) (offer_ids : list string)
  : result (list Price.t) :=
  create_prices watch_remnants offer_ids.

(** The calls [main] makes on the remote. *)
Inductive call : Type :=
| UpdateStocks (stocks : list Stock.t)
| UpdatePrice (prices : list Price.t).

(** Lines 394 and 397 of [main]: both builders receive the same list
    object [offer_ids], the second one after the first has emptied it of
    the matched ids. *)
Definition reconcile (watch_remnants : list watch) (offer_ids : list string)
  : result (list Stock.t * list Price.t) * list string :=
  match create_stocks watch_remnants offer_ids with
  | (Ok stocks, offer_ids') =>
      (prices <- create_prices watch_remnants offer_ids' ;; Ok (stocks, prices),
       offer_ids')
  | (Err e, offer_ids') => (Err e, offer_ids')
  end.

(** Lines 394-399 of [main] with the dispatch loops: the calls made on the
    remote, in order.  [main] catches every exception, so an error only
    ends the sequence. *)
Definition main_sync (update_stocks : list Stock.t -> result unit)
           (update_price : list Price.t -> result unit)
           (watch_remnants : list watch) (offer_ids : list string)
  : list call :=
  match create_stocks watch_remnants offer_ids with
  | (Ok stocks, offer_ids') =>
      match dispatch update_stocks stocks 100 with
      | (Ok _, sent) =>
          map UpdateStocks sent ++
          match create_prices watch_remnants offer_ids' with
          | Ok prices => map UpdatePrice (snd (dispatch update_price prices 900))
          | Err _ => []
          end
      | (Err _, sent) => map UpdateStocks sent
      end
  | (Err _, _) => []
  end.

End Seller.

(** * Marketplace B: market.py *)

Module Market.

Module Offer.
Record t : Type := mk { shopSku : string }.
End Offer.

Module Entry.
Record t : Type := mk { offer : Offer.t }.
End Entry.

Module Paging.
(** [nextPageToken] is [None] when the key is absent. *)
Record t : Type := mk { nextPageToken : option string }.
End Paging.

Module Page.
Record t : Type := mk {
  offerMappingEntries : list Entry.t;
  paging : Paging.t
}.
End Page.

Module Item.
Record t : Type := mk { count : Z; type : string; updatedAt : string }.
End Item.

Module Stock.
Record t : Type := mk {
  sku : string;
  warehouseId : string;
  items : list Item.t
}.
End Stock.

Module PriceValue.
Record t : Type := mk { value : Z; currencyId : string }.
End PriceValue.

Module Price.
Record t : Type := mk { id : string; price : PriceValue.t }.
End Price.

(** [not page] for the token read from the answer. *)
Definition falsy (page : option string) : bool :=
  match page with
  | None => true
  | Some s => String.eqb s ""
  end.

Section Enumerate.

Context {remote : Type}.

(** [get_product_list(page, campaign_id, access_token)] for a fixed
    campaign and token.  The first call passes the empty string. *)
Variable get_product_list : option string -> remote -> result Page.t * remote.

(** The body of [while True] (lines 161-166), at most [fuel] times. *)
Fixpoint get_offer_ids_loop (fuel : nat) (page : option string)
         (product_list : list Entry.t) (r : remote)
  : option (result (list Entry.t)) :=
  match fuel with
  | O => None
  | S fuel' =>
      match get_product_list page r with
      | (Ok some_prod, r') =>
          let product_list :=
            (product_list ++ Page.offerMappingEntries some_prod)%list in
          let page := Paging.nextPageToken (Page.paging some_prod) in
          if falsy page then Some (Ok product_list)
          else get_offer_ids_loop fuel' page product_list r'
      | (Err e, _) => Some (Err e)
      end
  end.

(** Lines 167-170: one [shopSku] per collected entry. *)
Definition get_offer_ids (fuel : nat) (r : remote)
  : option (result (list string)) :=
  match get_offer_ids_loop fuel (Some "") [] r with
  | Some (Ok product_list) =>
      Some (Ok (map (fun product => Offer.shopSku (Entry.offer product))
                    product_list))
  | Some (Err e) => Some (Err e)
  | None => None
  end.

(** The pagination protocol of marketplace B, as a run of the remote:
    [serves page r pages] holds when the fetches starting with cursor
    [page] answer with [pages], each page but the last carrying a
    non-empty [nextPageToken] and the last one an empty or absent one. *)
Inductive serves : option string -> remote -> list Page.t -> Prop :=
| serves_last page r some_prod r' :
    get_product_list page r = (Ok some_prod, r') ->
    falsy (Paging.nextPageToken (Page.paging some_prod)) = true ->
    serves page r [some_prod]
| serves_more page r some_prod r' pages :
    get_product_list page r = (Ok some_prod, r') ->
    falsy (Paging.nextPageToken (Page.paging some_prod)) = false ->
    serves (Paging.nextPageToken (Page.paging some_prod)) r' pages ->
    serves page r (some_prod :: pages).

End Enumerate.

(** The offer ids carried by a run of pages. *)
Definition page_ids (pages : list Page.t) : list string :=
  map (fun product => Offer.shopSku (Entry.offer product))
      (List.concat (map Page.offerMappingEntries pages)).

(** [date] is the clock reading taken once at the start of the call. *)
Definition stock_entry (warehouse_id date : string) (sku : string) (stock : Z)
  : Stock.t :=
  Stock.mk sku warehouse_id [Item.mk stock "FIT" date].

Definition create_stocks (date : string) (watch_remnants : list watch)
           (offer_ids : list string) (warehouse_id : string)
  : result (list Stock.t) * list string :=
  create_stocks_with (stock_entry warehouse_id date) watch_remnants offer_ids.

Definition price_entry (watch : watch) : result Price.t :=
  let id := py_str (kod watch) in
  digits <- price_conversion_value (tsena watch) ;;
  value <- py_int (VStr digits) ;;
  Ok (Price.mk id (PriceValue.mk value "RUR")).

Definition create_prices (watch_remnants : list watch) (offer_ids : list string)
  : result (list Price.t) :=
  create_prices_with price_entry watch_remnants offer_ids.

End Market.

(** * Vocabulary of the statements *)

(** [sku watch] is [str(watch.get("Код"))], the key a row is matched on. *)
Definition sku (w : watch) : string := py_str (kod w).

(** [subseq l1 l2]: [l1] is [l2] with some elements left out, the others in
    their order. *)
Inductive subseq {A : Type} : list A -> list A -> Prop :=
| subseq_nil : subseq [] []
| subseq_skip x l1 l2 : subseq l1 l2 -> subseq l1 (x :: l2)
| subseq_keep x l1 l2 : subseq l1 l2 -> subseq (x :: l1) (x :: l2).

(** The rows that pass the membership test when their turn comes, and the
    ids left at the end, read off the feed alone (no quantity is parsed). *)
Fixpoint matched_rows (feed : list watch) (offer_ids : list string) : list watch :=
  match feed with
  | [] => []
  | w :: rest =>
      if py_in (sku w) offer_ids
      then w :: matched_rows rest (list_remove (sku w) offer_ids)
      else matched_rows rest offer_ids
  end.

Fixpoint remaining_ids (feed : list watch) (offer_ids : list string) : list string :=
  match feed with
  | [] => offer_ids
  | w :: rest =>
      if py_in (sku w) offer_ids
      then remaining_ids rest (list_remove (sku w) offer_ids)
      else remaining_ids rest offer_ids
  end.

(** [c] is the quotient of [n] by [b] rounded up. *)
Definition is_ceil_div (c n b : Z) : Prop :=
  (c - 1) * b < n <= c * b.

(** A feed row with string cells. *)
Definition row (code quantity price : string) : watch :=
  mkWatch (VStr code) (VStr quantity) (VStr price).

(** What the first loop appends for a matched row. *)
Definition built_from {entry : Type} (stock_entry : string -> Z -> entry)
           (w : watch) (s : entry) : Prop :=
  exists c, stock_count (kolichestvo w) = Ok c /\ s = stock_entry (sku w) c.

(** The quantity of a row can be converted. *)
Definition quantity_ok (w : watch) : Prop :=
  exists c, stock_count (kolichestvo w) = Ok c.

(** The text of the price cell of a row that has one. *)
Definition price_text (w : watch) : string :=
  match tsena w with
  | VStr s => s
  | VNone | VInt _ => EmptyString
  end.

(** The price cell of a row is a string. *)
Definition price_is_str (w : watch) : Prop :=
  exists s, tsena w = VStr s.

(** The rows whose sku is in the list, which [create_prices] leaves
    untouched. *)
Definition listed_rows (feed : list watch) (offer_ids : list string) : list watch :=
  filter (fun w => py_in (sku w) offer_ids) feed.

Definition is_update_price (c : Seller.call) : bool :=
  match c with
  | Seller.UpdatePrice _ => true
  | Seller.UpdateStocks _ => false
  end.

(** Two remotes that serve the catalogue [a], [b], [c] in two pages. *)
Definition seller_pages_example : list Seller.Page.t :=
  [Seller.Page.mk [Seller.Product.mk "a"; Seller.Product.mk "b"] 3 "b";
   Seller.Page.mk [Seller.Product.mk "c"] 3 "c"].

Definition seller_remote_example (last_id : string) (r : unit)
  : result Seller.Page.t * unit :=
  if String.eqb last_id ""
  then (Ok (Seller.Page.mk [Seller.Product.mk "a"; Seller.Product.mk "b"] 3 "b"), r)
  else (Ok (Seller.Page.mk [Seller.Product.mk "c"] 3 "c"), r).

Definition market_entry (shopSku : string) : Market.Entry.t :=
  Market.Entry.mk (Market.Offer.mk shopSku).

Definition market_pages_example : list Market.Page.t :=
  [Market.Page.mk [market_entry "a"; market_entry "b"]
                  (Market.Paging.mk (Some "t1"));
   Market.Page.mk [market_entry "c"] (Market.Paging.mk None)].

Definition market_remote_example (page : option string) (r : unit)
  : result Market.Page.t * unit :=
  if Market.falsy page
  then (Ok (Market.Page.mk [market_entry "a"; market_entry "b"]
                           (Market.Paging.mk (Some "t1"))), r)
  else (Ok (Market.Page.mk [market_entry "c"] (Market.Paging.mk None)), r).

(** ** Decimal literals, as [int] accepts them *)

(** What may follow a digit of a literal: nothing, another digit, or one
    underscore and another digit; with the values of the digits read. *)
Inductive digit_tail : list N -> list Z -> Prop :=
| digit_tail_end : digit_tail [] []
| digit_tail_digit c d cs ds :
    decimal c = Some d -> digit_tail cs ds -> digit_tail (c :: cs) (d :: ds)
| digit_tail_underscore c d cs ds :
    decimal c = Some d -> digit_tail cs ds ->
    digit_tail (95%N :: c :: cs) (d :: ds).

(** The number written by a first digit and the digits after it. *)
Definition decimal_value (first : Z) (ds : list Z) : Z :=
  fold_left (fun acc d => 10 * acc + d) ds first.

(** No sign, ['+'] or ['-']. *)
Inductive sign_prefix : list N -> bool -> Prop :=
| sign_none : sign_prefix [] false
| sign_plus : sign_prefix [43%N] false
| sign_minus : sign_prefix [45%N] true.

Definition all_space (s : list N) : Prop :=
  Forall (fun c => is_space c = true) s.

(** [int_literal s z]: the characters [s] are white space, an optional
    sign, digits separated by at most one underscore at a time, and white
    space again, and the number written is [z]. *)
Inductive int_literal : list N -> Z -> Prop :=
| int_literal_intro ws1 sgn neg c d cs ds ws2 :
    all_space ws1 ->
    sign_prefix sgn neg ->
    decimal c = Some d ->
    digit_tail cs ds ->
    all_space ws2 ->
    int_literal (ws1 ++ sgn ++ c :: cs ++ ws2)%list
                (if neg then - decimal_value d ds else decimal_value d ds).

(** The quantity rule of [create_stocks], case by case: the count [c] that
    goes with the quantity cell [q]. *)
Definition quantity_rule (q : value) (c : Z) : Prop :=
  (py_str q = ">10" /\ c = 100)
  \/ (py_str q = "1" /\ c = 0)
  \/ (py_str q <> ">10" /\ py_str q <> "1" /\ py_int q = Ok c).

(** * The other paths of the two modules *)

(** Every character of [s] is one of ['0'] .. ['9']. *)
Fixpoint all_digits (s : string) : bool :=
  match s with
  | String c r => is_digit c && all_digits r
  | EmptyString => true
  end.

(** The price cell of a row is a string with a digit before its first full
    stop. *)
Definition price_has_digits (w : watch) : Prop :=
  exists s, tsena w = VStr s /\ price_conversion s <> EmptyString.

Module SellerPaths.

Section Enumerate.

Context {remote : Type}.
Variable get_product_list : string -> remote -> result Seller.Page.t * remote.

(** A run of [get_offer_ids] that ends in an exception: [breaks last_id seen
    r e] holds when the fetches starting with cursor [last_id], after [seen]
    items were collected, answer with pages that never meet the stop test
    until one fetch raises [e]. *)
Inductive breaks : string -> nat -> remote -> exn -> Prop :=
| breaks_now last_id seen r e r' :
    get_product_list last_id r = (Err e, r') ->
    breaks last_id seen r e
| breaks_later last_id seen r some_prod r' e :
    get_product_list last_id r = (Ok some_prod, r') ->
    Seller.Page.total some_prod
      <> Z.of_nat (seen + List.length (Seller.Page.items some_prod)) ->
    breaks (Seller.Page.last_id some_prod)
           (seen + List.length (Seller.Page.items some_prod)) r' e ->
    breaks last_id seen r e.

End Enumerate.

(** [upload_prices] (seller.py 336-340) run to its end: [enumerated] is the
    outcome of its call of [get_offer_ids]; returns the value returned or
    the exception raised, and the [update_price] calls made. *)
Definition upload_prices (update_price : list Seller.Price.t -> result unit)
           (watch_remnants : list watch) (enumerated : result (list string))
  : result (list Seller.Price.t) * list (list Seller.Price.t) :=
  match enumerated with
  | Ok offer_ids =>
      match Seller.create_prices watch_remnants offer_ids with
      | Ok prices =>
          match dispatch update_price prices 1000 with
          | (Ok _, calls) => (Ok prices, calls)
          | (Err e, calls) => (Err e, calls)
          end
      | Err e => (Err e, [])
      end
  | Err e => (Err e, [])
  end.

(** [lambda stock: stock.get("stock") != 0] *)
Definition not_empty_stock (stock : Seller.Stock.t) : bool :=
  negb (Seller.Stock.stock stock =? 0).

(** [upload_stocks] (seller.py 363-368) run to its end: the pair
    [(not_empty, stocks)] returned or the exception raised, and the
    [update_stocks] calls made. *)
Definition upload_stocks (update_stocks : list Seller.Stock.t -> result unit)
           (watch_remnants : list watch) (enumerated : result (list string))
  : result (list Seller.Stock.t * list Seller.Stock.t)
    * list (list Seller.Stock.t) :=
  match enumerated with
  | Ok offer_ids =>
      match fst (Seller.create_stocks watch_remnants offer_ids) with
      | Ok stocks =>
          match dispatch update_stocks stocks 100 with
          | (Ok _, calls) => (Ok (filter not_empty_stock stocks, stocks), calls)
          | (Err e, calls) => (Err e, calls)
          end
      | Err e => (Err e, [])
      end
  | Err e => (Err e, [])
  end.

(** The size of the batch a call of [main] carries. *)
Definition batch_size (c : Seller.call) : Z :=
  match c with
  | Seller.UpdateStocks stocks => Z.of_nat (List.length stocks)
  | Seller.UpdatePrice prices => Z.of_nat (List.length prices)
  end.

(** The largest batch [main] may send with a call of this kind. *)
Definition batch_limit (c : Seller.call) : Z :=
  match c with
  | Seller.UpdateStocks _ => 100
  | Seller.UpdatePrice _ => 900
  end.

End SellerPaths.

Module MarketPaths.

Section Enumerate.

Context {remote : Type}.
Variable get_product_list
  : option string -> remote -> result Market.Page.t * remote.

(** A run of [get_offer_ids] that ends in an exception: the pages fetched
    from cursor [page] on all carry a non-empty [nextPageToken], until one
    fetch raises [e]. *)
Inductive breaks : option string -> remote -> exn -> Prop :=
| breaks_now page r e r' :
    get_product_list page r = (Err e, r') ->
    breaks page r e
| breaks_later page r some_prod r' e :
    get_product_list page r = (Ok some_prod, r') ->
    Market.falsy (Market.Paging.nextPageToken (Market.Page.paging some_prod))
    = false ->
    breaks (Market.Paging.nextPageToken (Market.Page.paging some_prod)) r' e ->
    breaks page r e.

End Enumerate.

(** [upload_prices] (market.py 296-300) run to its end. *)
Definition upload_prices (update_price : list Market.Price.t -> result unit)
           (watch_remnants : list watch) (enumerated : result (list string))
  : result (list Market.Price.t) * list (list Market.Price.t) :=
  match enumerated with
  | Ok offer_ids =>
      match Market.create_prices watch_remnants offer_ids with
      | Ok prices =>
          match dispatch update_price prices 500 with
          | (Ok _, calls) => (Ok prices, calls)
          | (Err e, calls) => (Err e, calls)
          end
      | Err e => (Err e, [])
      end
  | Err e => (Err e, [])
  end.

(** [lambda stock: stock.get("items")[0].get("count") != 0].  Every entry
    [create_stocks] builds has exactly one item, so the [IndexError] of an
    empty [items] cannot occur; such an entry is kept out. *)
Definition not_empty_stock (stock : Market.Stock.t) : bool :=
  match Market.Stock.items stock with
  | item :: _ => negb (Market.Item.count item =? 0)
  | [] => false
  end.

(** [upload_stocks] (market.py 325-332) run to its end. *)
Definition upload_stocks (update_stocks : list Market.Stock.t -> result unit)
           (date : string) (watch_remnants : list watch)
           (enumerated : result (list string)) (warehouse_id : string)
  : result (list Market.Stock.t * list Market.Stock.t)
    * list (list Market.Stock.t) :=
  match enumerated with
  | Ok offer_ids =>
      match fst (Market.create_stocks date watch_remnants offer_ids warehouse_id) with
      | Ok stocks =>
          match dispatch update_stocks stocks 2000 with
          | (Ok _, calls) => (Ok (filter not_empty_stock stocks, stocks), calls)
          | (Err e, calls) => (Err e, calls)
          end
      | Err e => (Err e, [])
      end
  | Err e => (Err e, [])
  end.

(** The two campaigns [main] serves. *)
Inductive campaign : Type :=
| FBS
| DBS.

(** The calls [main] makes on the remote. *)
Inductive call : Type :=
| UpdateStocks (c : campaign) (stocks : list Market.Stock.t).

Definition call_campaign (c : call) : campaign :=
  match c with
  | UpdateStocks c _ => c
  end.

Definition call_batch (c : call) : list Market.Stock.t :=
  match c with
  | UpdateStocks _ stocks => stocks
  end.

(** One campaign's share of [main] (market.py 362-368, 371-377):
    enumeration, [create_stocks], the stock dispatch loop.  The call
    [upload_prices(...)] that follows is not awaited: it creates a coroutine
    object whose body never runs, so it adds no call and raises nothing. *)
Definition campaign_sync (update_stocks : list Market.Stock.t -> result unit)
           (date : string) (watch_remnants : list watch)
           (enumerated : result (list string)) (warehouse_id : string)
  : result unit * list (list Market.Stock.t) :=
  match enumerated with
  | Ok offer_ids =>
      match fst (Market.create_stocks date watch_remnants offer_ids warehouse_id) with
      | Ok stocks => dispatch update_stocks stocks 2000
      | Err e => (Err e, [])
      end
  | Err e => (Err e, [])
  end.

(** The [try] block of [main] (market.py 360-377): the calls made on the
    remote, in order.  Every exception is caught and ends the block. *)
Definition main_sync (update_stocks : campaign -> list Market.Stock.t -> result unit)
           (date_fbs date_dbs : string) (watch_remnants : list watch)
           (enumerated_fbs enumerated_dbs : result (list string))
           (warehouse_fbs_id warehouse_dbs_id : string) : list call :=
  match campaign_sync (update_stocks FBS) date_fbs watch_remnants
                      enumerated_fbs warehouse_fbs_id with
  | (Ok _, sent) =>
      map (UpdateStocks FBS) sent
      ++ map (UpdateStocks DBS)
             (snd (campaign_sync (update_stocks DBS) date_dbs watch_remnants
                                 enumerated_dbs warehouse_dbs_id))
  | (Err _, sent) => map (UpdateStocks FBS) sent
  end.

End MarketPaths.

(** A remote that refuses the batch starting with 3. *)
Definition refuse_batch_3 (batch : list Z) : result unit :=
  match batch with
  | 3 :: _ => Err HTTPError
  | _ => Ok tt
  end.

(** A remote of marketplace A that serves one page and then is down. *)
Definition seller_remote_down (last_id : string) (r : unit)
  : result Seller.Page.t * unit :=
  if String.eqb last_id ""
  then (Ok (Seller.Page.mk [Seller.Product.mk "a"; Seller.Product.mk "b"] 3 "b"), r)
  else (Err HTTPError, r).

(** * Facts about lists of offer ids *)

Lemma py_in_In x l : py_in x l = true <-> In x l.
Proof.
  unfold py_in. rewrite existsb_exists. split.
  - intros [y [Hy He]]. apply String.eqb_eq in He. now subst.
  - intros H. exists x. split; [assumption | apply String.eqb_refl].
Qed.

Lemma py_in_not_In x l : py_in x l = false <-> ~ In x l.
Proof.
  rewrite <- py_in_In. destruct (py_in x l); split; congruence.
Qed.

Lemma subseq_refl {A : Type} (l : list A) : subseq l l.
Proof. induction l; constructor; assumption. Qed.

Lemma subseq_trans {A : Type} (l1 l2 l3 : list A) :
  subseq l1 l2 -> subseq l2 l3 -> subseq l1 l3.
Proof.
  intros H12 H23. revert l1 H12.
  induction H23; intros k Hk.
  - assumption.
  - constructor. now apply IHsubseq.
  - inversion Hk; subst.
    + constructor. now apply IHsubseq.
    + apply subseq_keep. now apply IHsubseq.
Qed.

Lemma subseq_In {A : Type} (l1 l2 : list A) x :
  subseq l1 l2 -> In x l1 -> In x l2.
Proof.
  induction 1; simpl; intuition.
Qed.

Lemma subseq_NoDup {A : Type} (l1 l2 : list A) :
  subseq l1 l2 -> NoDup l2 -> NoDup l1.
Proof.
  induction 1; intros Hnd.
  - constructor.
  - inversion Hnd; subst. auto.
  - inversion Hnd; subst. constructor; [ | auto].
    intros Hin. eapply subseq_In in Hin; eauto.
Qed.

Lemma list_remove_subseq x l : subseq (list_remove x l) l.
Proof.
  induction l as [ | y l IH]; simpl.
  - constructor.
  - destruct (String.eqb y x).
    + constructor. apply subseq_refl.
    + now apply subseq_keep.
Qed.

Lemma list_remove_perm x l :
  In x l -> Permutation l (x :: list_remove x l).
Proof.
  induction l as [ | y l IH]; simpl; [tauto | ].
  intros Hin. destruct (String.eqb y x) eqn:E.
  - apply String.eqb_eq in E. now subst.
  - apply String.eqb_neq in E. destruct Hin as [-> | Hin]; [congruence | ].
    rewrite (IH Hin) at 1. apply perm_swap.
Qed.

Lemma filter_all {A : Type} (f : A -> bool) (l : list A) :
  (forall a, In a l -> f a = true) -> filter f l = l.
Proof.
  induction l as [ | a l IH]; simpl; intros H; [reflexivity | ].
  rewrite (H a) by now left. f_equal. apply IH. intros b Hb. apply H. now right.
Qed.

Lemma list_remove_NoDup_filter x l :
  NoDup l -> list_remove x l = filter (fun y => negb (String.eqb y x)) l.
Proof.
  induction 1 as [ | y l Hy Hnd IH]; simpl; [reflexivity | ].
  destruct (String.eqb y x) eqn:E; simpl.
  - apply String.eqb_eq in E. subst y. symmetry. apply filter_all.
    intros a Ha. destruct (String.eqb a x) eqn:Ea; [ | reflexivity].
    apply String.eqb_eq in Ea. now subst.
  - now rewrite IH.
Qed.


(** * Facts about the row selection *)

Lemma matched_rows_subseq feed ids : subseq (matched_rows feed ids) feed.
Proof.
  revert ids. induction feed as [ | w feed IH]; intros ids; simpl.
  - constructor.
  - destruct (py_in (sku w) ids).
    + apply subseq_keep, IH.
    + apply subseq_skip, IH.
Qed.


Lemma matched_remaining_perm feed ids :
  Permutation ids (map sku (matched_rows feed ids) ++ remaining_ids feed ids).
Proof.
  revert ids. induction feed as [ | w feed IH]; intros ids; simpl.
  - apply Permutation_refl.
  - destruct (py_in (sku w) ids) eqn:E; [ | apply IH].
    apply py_in_In in E. simpl.
    rewrite (list_remove_perm _ _ E) at 1. apply perm_skip, IH.
Qed.

Lemma remaining_ids_NoDup_filter feed ids :
  NoDup ids ->
  remaining_ids feed ids
  = filter (fun id => negb (py_in id (map sku feed))) ids.
Proof.
  revert ids. induction feed as [ | w feed IH]; intros ids Hnd; simpl.
  - symmetry. now apply filter_all.
  - destruct (py_in (sku w) ids) eqn:E.
    + rewrite IH by (eapply subseq_NoDup; [apply list_remove_subseq | assumption]).
      rewrite (list_remove_NoDup_filter _ _ Hnd).
      clear. induction ids as [ | y ids IHi]; simpl; [reflexivity | ].
      destruct (String.eqb y (sku w)); simpl; [assumption | ].
      destruct (py_in y (map sku feed)); simpl; [assumption | now f_equal].
    + rewrite (IH _ Hnd). apply filter_ext_in.
      intros a Ha. apply py_in_not_In in E.
      destruct (String.eqb a (sku w)) eqn:Ea; [ | reflexivity].
      apply String.eqb_eq in Ea. now subst.
Qed.

(** * The stock list builder *)

Section StockFacts.

Context {entry : Type}.
Variable stock_entry : string -> Z -> entry.

Lemma unmatched_phase_app (stocks : list entry) ids :
  unmatched_phase stock_entry stocks ids
  = (stocks ++ map (fun id => stock_entry id 0) ids)%list.
Proof.
  unfold unmatched_phase. revert stocks.
  induction ids as [ | id ids IH]; intros stocks; simpl.
  - now rewrite app_nil_r.
  - rewrite IH, <- app_assoc. reflexivity.
Qed.

(** The list built so far is only ever extended. *)
Lemma matched_phase_acc feed (acc : list entry) ids :
  matched_phase stock_entry feed acc ids
  = match matched_phase stock_entry feed [] ids with
    | (Ok m, r) => (Ok (acc ++ m)%list, r)
    | (Err e, r) => (Err e, r)
    end.
Proof.
  revert acc ids. induction feed as [ | w feed IH]; intros acc ids; simpl.
  - now rewrite app_nil_r.
  - destruct (py_in (py_str (kod w)) ids); [ | apply IH].
    destruct (stock_count (kolichestvo w)) as [c | e]; [ | reflexivity].
    rewrite IH. rewrite (IH [_]).
    destruct (matched_phase stock_entry feed [] _) as [[m | e] r];
      [ | reflexivity].
    now rewrite <- app_assoc.
Qed.

(** Whatever the outcome, the ids left are the ones of some prefix of the
    feed; on success, of the whole feed. *)
Lemma matched_phase_remaining_subseq feed (acc : list entry) ids res r :
  matched_phase stock_entry feed acc ids = (res, r) -> subseq r ids.
Proof.
  revert acc ids. induction feed as [ | w feed IH]; intros acc ids; simpl.
  - intros [= _ <-]. apply subseq_refl.
  - destruct (py_in (py_str (kod w)) ids); [ | apply IH].
    destruct (stock_count (kolichestvo w)) as [c | e].
    + intros H. apply IH in H.
      eapply subseq_trans; [exact H | apply list_remove_subseq].
    + intros [= _ <-]. apply subseq_refl.
Qed.

Lemma matched_phase_ok feed ids m r :
  matched_phase stock_entry feed [] ids = (Ok m, r) ->
  r = remaining_ids feed ids
  /\ Forall2 (built_from stock_entry) (matched_rows feed ids) m.
Proof.
  revert ids m r. induction feed as [ | w feed IH]; intros ids m r; simpl.
  - intros [= <- <-]. split; [reflexivity | constructor].
  - fold (sku w). destruct (py_in (sku w) ids); [ | apply IH].
    destruct (stock_count (kolichestvo w)) as [c | e] eqn:Ec; [ | discriminate].
    rewrite matched_phase_acc.
    destruct (matched_phase stock_entry feed [] _) as [[m' | e] r'] eqn:Em;
      [ | discriminate].
    intros [= <- <-]. destruct (IH _ _ _ Em) as [-> HF].
    split; [reflexivity | ]. simpl. constructor; [ | assumption].
    exists c. split; [assumption | reflexivity].
Qed.

(** The first loop raises only on a row that is matched and whose
    quantity cannot be converted. *)
Lemma matched_phase_total feed ids :
  Forall (fun w => In (sku w) ids -> quantity_ok w) feed ->
  exists m,
    matched_phase stock_entry feed [] ids = (Ok m, remaining_ids feed ids).
Proof.
  revert ids. induction feed as [ | w feed IH]; intros ids Hall; simpl.
  - eexists. reflexivity.
  - inversion Hall as [ | ? ? Hw Hrest]; subst. fold (sku w).
    destruct (py_in (sku w) ids) eqn:E.
    + apply py_in_In in E. destruct (Hw E) as [c Hc]. rewrite Hc.
      rewrite matched_phase_acc.
      destruct (IH (list_remove (sku w) ids)) as [m Hm].
      { eapply Forall_impl; [ | exact Hrest]. simpl. intros a Ha Hin.
        apply Ha. eapply subseq_In; [apply list_remove_subseq | exact Hin]. }
      rewrite Hm. eexists. reflexivity.
    + now apply IH.
Qed.

Lemma create_stocks_with_ok feed ids stocks r :
  create_stocks_with stock_entry feed ids = (Ok stocks, r) ->
  r = remaining_ids feed ids
  /\ exists m,
      Forall2 (built_from stock_entry) (matched_rows feed ids) m
      /\ stocks = (m ++ map (fun id => stock_entry id 0) r)%list.
Proof.
  unfold create_stocks_with.
  destruct (matched_phase stock_entry feed [] ids) as [[m | e] r'] eqn:Em;
    [ | discriminate].
  intros [= <- <-]. destruct (matched_phase_ok _ _ _ _ Em) as [Hr HF].
  split; [assumption | ]. exists m. split; [assumption | ].
  apply unmatched_phase_app.
Qed.

Lemma create_stocks_with_total feed ids :
  Forall (fun w => In (sku w) ids -> quantity_ok w) feed ->
  exists stocks,
    create_stocks_with stock_entry feed ids = (Ok stocks, remaining_ids feed ids).
Proof.
  intros Hall. unfold create_stocks_with.
  destruct (matched_phase_total _ _ Hall) as [m ->]. eexists. reflexivity.
Qed.

(** A row whose sku is not in the list is passed over. *)
Lemma matched_phase_skip w feed (acc : list entry) ids :
  ~ In (sku w) ids ->
  matched_phase stock_entry (w :: feed) acc ids
  = matched_phase stock_entry feed acc ids.
Proof.
  intros H. simpl. fold (sku w). apply py_in_not_In in H. now rewrite H.
Qed.




(** The exact condition under which the first loop completes. *)
Lemma matched_phase_total_rows feed ids :
  Forall quantity_ok (matched_rows feed ids) ->
  exists m,
    matched_phase stock_entry feed [] ids = (Ok m, remaining_ids feed ids).
Proof.
  revert ids. induction feed as [ | w feed IH]; intros ids; simpl.
  - intros _. eexists. reflexivity.
  - fold (sku w). destruct (py_in (sku w) ids); [ | apply IH].
    intros Hall. inversion Hall as [ | ? ? [c Hc] Hrest]; subst.
    rewrite Hc, matched_phase_acc.
    destruct (IH _ Hrest) as [m ->]. eexists. reflexivity.
Qed.

Lemma create_stocks_with_total_rows feed ids :
  Forall quantity_ok (matched_rows feed ids) ->
  exists stocks,
    create_stocks_with stock_entry feed ids = (Ok stocks, remaining_ids feed ids).
Proof.
  intros Hall. unfold create_stocks_with.
  destruct (matched_phase_total_rows _ _ Hall) as [m ->]. eexists. reflexivity.
Qed.

Section Projections.

Variable entry_id : entry -> string.
Hypothesis entry_id_mk : forall id c, entry_id (stock_entry id c) = id.

Lemma built_from_ids rows (m : list entry) :
  Forall2 (built_from stock_entry) rows m -> map entry_id m = map sku rows.
Proof.
  induction 1 as [ | w s rows m [c [_ ->]] _ IH]; simpl; [reflexivity | ].
  now rewrite entry_id_mk, IH.
Qed.

Lemma create_stocks_with_ids feed ids stocks r :
  create_stocks_with stock_entry feed ids = (Ok stocks, r) ->
  map entry_id stocks = (map sku (matched_rows feed ids) ++ r)%list.
Proof.
  intros H. apply create_stocks_with_ok in H.
  destruct H as [_ [m [HF ->]]].
  rewrite map_app, (built_from_ids _ _ HF), map_map. f_equal.
  rewrite <- (map_id r) at 2. apply map_ext. intros; apply entry_id_mk.
Qed.

(** Every id of the list is answered by exactly one entry. *)
Lemma create_stocks_with_perm feed ids stocks r :
  create_stocks_with stock_entry feed ids = (Ok stocks, r) ->
  Permutation (map entry_id stocks) ids.
Proof.
  intros H. rewrite (create_stocks_with_ids _ _ _ _ H).
  destruct (create_stocks_with_ok _ _ _ _ H) as [-> _].
  symmetry. apply matched_remaining_perm.
Qed.

End Projections.

Lemma create_stocks_with_counts (P : entry -> Prop) feed ids stocks r :
  (forall id c, 0 <= c -> P (stock_entry id c)) ->
  Forall (fun w => forall c, stock_count (kolichestvo w) = Ok c -> 0 <= c) feed ->
  create_stocks_with stock_entry feed ids = (Ok stocks, r) ->
  Forall P stocks.
Proof.
  intros HP Hfeed H. apply create_stocks_with_ok in H.
  destruct H as [_ [m [HF ->]]]. apply Forall_app. split.
  - assert (Hrows : Forall (fun w => forall c, stock_count (kolichestvo w) = Ok c
                                               -> 0 <= c)
                           (matched_rows feed ids)).
    { rewrite Forall_forall in *. intros w Hw. apply Hfeed.
      eapply subseq_In; [apply matched_rows_subseq | exact Hw]. }
    clear Hfeed. induction HF as [ | w s rows m [c [Hc ->]] _ IH];
      constructor.
    + apply HP. inversion Hrows; subst. auto.
    + apply IH. now inversion Hrows.
  - apply Forall_forall. intros s Hs. apply in_map_iff in Hs.
    destruct Hs as [id [<- _]]. apply HP. lia.
Qed.

End StockFacts.

Lemma count_occ_list_remove x l y :
  In x l ->
  count_occ string_dec (list_remove x l) y
  = (count_occ string_dec l y - (if string_dec x y then 1 else 0))%nat.
Proof.
  induction l as [ | z l IH]; simpl; [tauto | ].
  intros Hin. destruct (String.eqb_spec z x) as [-> | Hzx].
  - destruct (string_dec x y); lia.
  - destruct Hin as [-> | Hin]; [congruence | ].
    simpl. rewrite (IH Hin).
    destruct (string_dec z y) as [-> | _];
      destruct (string_dec x y) as [-> | _]; try congruence; lia.
Qed.

Lemma remaining_ids_count feed ids id :
  count_occ string_dec (remaining_ids feed ids) id
  = (count_occ string_dec ids id
     - count_occ string_dec (map sku feed) id)%nat.
Proof.
  revert ids. induction feed as [ | w feed IH]; intros ids; simpl.
  - lia.
  - destruct (py_in (sku w) ids) eqn:E.
    + apply py_in_In in E. rewrite IH, (count_occ_list_remove _ _ _ E).
      destruct (string_dec (sku w) id); lia.
    + apply py_in_not_In in E. rewrite IH.
      destruct (string_dec (sku w) id) as [<- | _]; [ | reflexivity].
      apply (count_occ_not_In string_dec) in E. lia.
Qed.

Section StockErrors.

Context {entry : Type}.
Variable stock_entry : string -> Z -> entry.

Lemma matched_phase_app l1 l2 (acc : list entry) ids :
  matched_phase stock_entry (l1 ++ l2) acc ids
  = match matched_phase stock_entry l1 acc ids with
    | (Ok stocks, r) => matched_phase stock_entry l2 stocks r
    | (Err e, r) => (Err e, r)
    end.
Proof.
  revert acc ids. induction l1 as [ | w l1 IH]; intros acc ids; simpl.
  - reflexivity.
  - destruct (py_in (py_str (kod w)) ids); [ | apply IH].
    destruct (stock_count (kolichestvo w)); [apply IH | reflexivity].
Qed.

(** The row on which the first loop raises, and the list it leaves. *)
Lemma create_stocks_with_raises l1 w l2 ids e :
  Forall quantity_ok (matched_rows l1 ids) ->
  In (sku w) (remaining_ids l1 ids) ->
  stock_count (kolichestvo w) = Err e ->
  create_stocks_with stock_entry (l1 ++ w :: l2) ids
  = (Err e, remaining_ids l1 ids).
Proof.
  intros Hok Hin He. unfold create_stocks_with.
  rewrite matched_phase_app.
  destruct (matched_phase_total_rows stock_entry _ _ Hok) as [m ->].
  simpl. fold (sku w). apply py_in_In in Hin. now rewrite Hin, He.
Qed.

Lemma create_stocks_with_nothing_listed feed ids :
  Forall (fun w => ~ In (sku w) ids) feed ->
  create_stocks_with stock_entry feed ids
  = (Ok (map (fun id => stock_entry id 0) ids), ids).
Proof.
  intros H. unfold create_stocks_with.
  assert (Hm : forall acc, matched_phase stock_entry feed acc ids = (Ok acc, ids)).
  { induction H as [ | w feed Hw _ IH]; intros acc; [reflexivity | ].
    rewrite matched_phase_skip by assumption. apply IH. }
  rewrite Hm. now rewrite unmatched_phase_app.
Qed.

End StockErrors.

Lemma stock_count_Err q e :
  stock_count q = Err e -> e = ValueError \/ e = TypeError.
Proof.
  unfold stock_count.
  destruct (String.eqb (py_str q) ">10"); [discriminate | ].
  destruct (String.eqb (py_str q) "1"); [discriminate | ].
  destruct q as [ | s | z]; simpl.
  - intros [= <-]. now right.
  - destruct (int_of_str s); [discriminate | ]. intros [= <-]. now left.
  - discriminate.
Qed.

(** * [int] and the decimal literals *)

Lemma is_space_In c : is_space c = true -> In c space_code_points.
Proof.
  unfold is_space. rewrite existsb_exists. intros [x [Hx He]].
  apply N.eqb_eq in He. now subst.
Qed.

(** White space is neither a digit nor an underscore. *)
Lemma is_space_other c :
  is_space c = true -> decimal c = None /\ is_underscore c = false.
Proof.
  intros H. apply is_space_In in H. unfold space_code_points in H.
  repeat (destruct H as [<- | H]; [split; reflexivity | ]). destruct H.
Qed.

Lemma decimal_not_space c d : decimal c = Some d -> is_space c = false.
Proof.
  intros H. destruct (is_space c) eqn:E; [ | reflexivity].
  apply is_space_other in E. destruct E as [E _]. congruence.
Qed.

Lemma decimal_not_sign c d : decimal c = Some d -> c <> 43%N /\ c <> 45%N.
Proof. intros H. split; intros ->; discriminate H. Qed.

Lemma decimal_range c d : decimal c = Some d -> 0 <= d <= 9.
Proof.
  unfold decimal.
  destruct (find _ decimal_zeros) as [z | ] eqn:E; [ | discriminate].
  apply find_some in E. destruct E as [_ E]. apply andb_true_iff in E.
  destruct E as [E1 E2]. apply N.leb_le in E1. apply N.leb_le in E2.
  intros [= <-]. lia.
Qed.

Lemma lstrip_split s : exists ws, s = (ws ++ lstrip s)%list /\ all_space ws.
Proof.
  induction s as [ | c s [ws [Hs Hws]]]; simpl.
  - exists []. split; [reflexivity | constructor].
  - destruct (is_space c) eqn:E.
    + exists (c :: ws). split; [simpl; now f_equal | now constructor].
    + exists []. split; [reflexivity | constructor].
Qed.

Lemma lstrip_all_space s : lstrip s = [] <-> all_space s.
Proof.
  induction s as [ | c s IH]; simpl.
  - split; [constructor | reflexivity].
  - destruct (is_space c) eqn:E.
    + rewrite IH. split; [now constructor | now inversion 1].
    + split; [discriminate | ]. inversion 1; congruence.
Qed.

Lemma lstrip_app ws s : all_space ws -> lstrip (ws ++ s) = lstrip s.
Proof.
  induction 1 as [ | c ws Hc _ IH]; simpl; [reflexivity | ]. now rewrite Hc.
Qed.

Lemma value_step acc d ds :
  decimal_value acc (d :: ds) = decimal_value (10 * acc + d) ds.
Proof. reflexivity. Qed.

(** What a successful scan has read. *)
Lemma scan_digits_sound s :
  forall prev_us acc v rest,
    scan_digits s prev_us acc = Some (v, rest) ->
    if prev_us
    then exists c d cs ds,
        s = (c :: cs ++ rest)%list /\ decimal c = Some d
        /\ digit_tail cs ds /\ v = decimal_value (10 * acc + d) ds
    else exists cs ds,
        s = (cs ++ rest)%list /\ digit_tail cs ds /\ v = decimal_value acc ds.
Proof.
  induction s as [ | c s IH]; intros pu acc v rest; cbn [scan_digits].
  - destruct pu; [discriminate | ]. intros [= <- <-].
    exists [], []. repeat split. constructor.
  - destruct (decimal c) as [d | ] eqn:Ed.
    + intros H. apply (IH false) in H. destruct H as [cs [ds [-> [Ht ->]]]].
      destruct pu.
      * exists c, d, cs, ds. repeat split; assumption.
      * exists (c :: cs), (d :: ds). repeat split. now constructor.
    + destruct (is_underscore c) eqn:Eu.
      * destruct pu; [discriminate | ]. intros H. apply (IH true) in H.
        destruct H as [c' [d [cs [ds [-> [Hd [Ht ->]]]]]]].
        apply N.eqb_eq in Eu. subst c.
        exists (95%N :: c' :: cs), (d :: ds). repeat split. now constructor.
      * destruct pu; [discriminate | ]. intros [= <- <-].
        exists [], []. repeat split. constructor.
Qed.

(** A digit run is read to its end, up to a character that cannot
    continue it. *)
Lemma scan_digits_complete cs ds :
  digit_tail cs ds ->
  forall acc rest,
    all_space rest ->
    scan_digits (cs ++ rest) false acc = Some (decimal_value acc ds, rest).
Proof.
  induction 1 as [ | c d cs ds Hd _ IH | c d cs ds Hd _ IH];
    intros acc rest Hrest.
  - destruct Hrest as [ | c rest Hc Hrest]; [reflexivity | ].
    destruct (is_space_other c Hc) as [Hn Hu].
    cbn [app scan_digits]. now rewrite Hn, Hu.
  - cbn [app scan_digits]. rewrite Hd. now apply IH.
  - cbn [app scan_digits].
    change (decimal 95) with (@None Z). change (is_underscore 95) with true.
    cbv iota. rewrite Hd. now apply IH.
Qed.

(** [int] accepts exactly the decimal literals, with their value. *)
Lemma int_of_code_points_spec s z :
  int_of_code_points s = Some z <-> int_literal s z.
Proof.
  split.
  - unfold int_of_code_points.
    destruct (lstrip_split s) as [ws1 [Hs Hws1]].
    assert (Hsgn : exists sgn,
               sign_prefix sgn (fst (split_sign (lstrip s)))
               /\ lstrip s = (sgn ++ snd (split_sign (lstrip s)))%list).
    { unfold split_sign. destruct (lstrip s) as [ | c0 r0].
      - exists []. split; [constructor | reflexivity].
      - destruct (N.eqb_spec c0 43) as [-> | _].
        + exists [43%N]. split; [constructor | reflexivity].
        + destruct (N.eqb_spec c0 45) as [-> | _].
          * exists [45%N]. split; [constructor | reflexivity].
          * exists []. split; [constructor | reflexivity]. }
    destruct Hsgn as [sgn [Hsgn Hl]].
    destruct (split_sign (lstrip s)) as [neg body]. cbn [fst snd] in *.
    destruct (parse_digits body) as [[v rest] | ] eqn:Ep; [ | discriminate].
    destruct (lstrip rest) eqn:Er; [ | discriminate].
    intros [= <-]. apply lstrip_all_space in Er.
    unfold parse_digits in Ep. destruct body as [ | c body]; [discriminate | ].
    destruct (decimal c) as [d | ] eqn:Ed; [ | discriminate].
    cbn [scan_digits] in Ep. rewrite Ed in Ep.
    apply (scan_digits_sound body false) in Ep.
    destruct Ep as [cs [ds [-> [Ht ->]]]].
    rewrite Hs, Hl. now apply int_literal_intro.
  - intros H. destruct H as [ws1 sgn neg c d cs ds ws2 Hws1 Hsgn Hd Ht Hws2].
    unfold int_of_code_points. rewrite (lstrip_app _ _ Hws1).
    pose proof (decimal_not_space _ _ Hd) as Hsp.
    destruct (decimal_not_sign _ _ Hd) as [Hplus Hminus].
    assert (Hparse : parse_digits (c :: cs ++ ws2)
                     = Some (decimal_value d ds, ws2)).
    { unfold parse_digits. rewrite Hd. cbn [scan_digits]. rewrite Hd.
      now apply scan_digits_complete. }
    apply lstrip_all_space in Hws2.
    destruct Hsgn; cbn [app lstrip split_sign].
    + rewrite Hsp. cbn [split_sign].
      destruct (N.eqb_spec c 43); [contradiction | ].
      destruct (N.eqb_spec c 45); [contradiction | ].
      now rewrite Hparse, Hws2.
    + change (is_space 43) with false. cbv iota. cbn [split_sign N.eqb Pos.eqb].
      now rewrite Hparse, Hws2.
    + change (is_space 45) with false. cbv iota. cbn [split_sign N.eqb Pos.eqb].
      now rewrite Hparse, Hws2.
Qed.

(** * ASCII numerals *)

Lemma is_digit_decimal a :
  is_digit a = true ->
  (N_of_ascii a <? 128)%N = true
  /\ decimal (N_of_ascii a) = Some (Z.of_N (N_of_ascii a) - 48).
Proof.
  destruct a as [[|] [|] [|] [|] [|] [|] [|] [|]]; vm_compute;
    (split; [try reflexivity; discriminate | try reflexivity; discriminate]).
Qed.

(** A run of ASCII digits is its own sequence of characters, each a digit. *)
Lemma all_digits_code_points s :
  all_digits s = true ->
  exists cs ds,
    code_points s = Some cs
    /\ digit_tail cs ds
    /\ Forall (fun d => 0 <= d) ds.
Proof.
  induction s as [ | a s IH]; cbn [all_digits code_points].
  - intros _. exists [], [].
    split; [reflexivity | split; constructor].
  - intros H. apply andb_true_iff in H. destruct H as [Ha Hs].
    destruct (IH Hs) as [cs [ds [Hc [Ht Hpos]]]].
    destruct (is_digit_decimal a Ha) as [Hlt Hd].
    cbv zeta. rewrite Hlt, Hc. cbn [option_map].
    exists (N_of_ascii a :: cs), (Z.of_N (N_of_ascii a) - 48 :: ds).
    split; [reflexivity | ]. split; [now constructor | ].
    constructor; [ | assumption].
    apply decimal_range in Hd. lia.
Qed.

Lemma decimal_value_nonneg ds :
  Forall (fun d => 0 <= d) ds ->
  forall first, 0 <= first -> 0 <= decimal_value first ds.
Proof.
  unfold decimal_value. induction 1 as [ | d ds Hd _ IH]; intros first Hf;
    cbn [fold_left]; [assumption | ].
  apply IH. lia.
Qed.

(** [int] accepts every non-empty run of ASCII digits, as a non-negative
    value. *)
Lemma int_of_str_all_digits c r :
  all_digits (String c r) = true ->
  exists v, int_of_str (String c r) = Some v /\ 0 <= v.
Proof.
  intros H. destruct (all_digits_code_points _ H) as [cs [ds [Hc [Ht Hpos]]]].
  unfold int_of_str. rewrite Hc.
  assert (Hne : cs <> []).
  { cbn [all_digits] in H. apply andb_true_iff in H. destruct H as [Ha _].
    cbn [code_points] in Hc. cbv zeta in Hc.
    rewrite (proj1 (is_digit_decimal c Ha)) in Hc.
    destruct (code_points r); [ | discriminate]. injection Hc as <-.
    discriminate. }
  inversion Ht as [ | c0 d0 cs0 ds0 Hd0 Ht0 | c0 d0 cs0 ds0 Hd0 Ht0]; subst.
  - contradiction.
  - exists (decimal_value d0 ds0). split.
    + apply int_of_code_points_spec.
      pose proof (int_literal_intro [] [] false c0 d0 cs0 ds0 []
                    (Forall_nil _) sign_none Hd0 Ht0 (Forall_nil _)) as Hl.
      cbn [app] in Hl. now rewrite app_nil_r in Hl.
    + inversion Hpos; subst. now apply decimal_value_nonneg.
  - exfalso. cbn [all_digits] in H. apply andb_true_iff in H.
    destruct H as [Ha _]. cbn [code_points] in Hc. cbv zeta in Hc.
    destruct (is_digit_decimal c Ha) as [Hlt Hd]. rewrite Hlt in Hc.
    destruct (code_points r); [ | discriminate]. injection Hc as Hc _.
    rewrite Hc in Hd. discriminate Hd.
Qed.

Lemma all_digits_uint d : all_digits (NilEmpty.string_of_uint d) = true.
Proof. induction d; simpl; auto. Qed.

(** * [int] reads back what [str] writes *)

Lemma scan_digits_digit c d r prev_us acc :
  decimal c = Some d ->
  scan_digits (c :: r) prev_us acc = scan_digits r false (10 * acc + d).
Proof. intros H. cbn [scan_digits]. now rewrite H. Qed.

Lemma code_points_ascii a s cs :
  (N_of_ascii a <? 128)%N = true ->
  code_points s = Some cs ->
  code_points (String a s) = Some (N_of_ascii a :: cs).
Proof. intros Ha Hs. cbn [code_points]. cbv zeta. now rewrite Ha, Hs. Qed.

Ltac uint_step IH :=
  destruct IH as [cs [Hc [Hacc [Hzero Hhead]]]];
  cbn [NilEmpty.string_of_uint];
  eexists; split; [apply code_points_ascii; [reflexivity | exact Hc] | ];
  split; [ | split];
  [ intros acc;
    erewrite scan_digits_digit by (vm_compute; reflexivity);
    cbn [Pos.of_uint_acc]; rewrite <- Hacc; f_equal; lia
  | erewrite scan_digits_digit by (vm_compute; reflexivity);
    cbn [Pos.of_uint];
    match goal with
    | |- scan_digits _ false ?a = _ =>
        let v := eval vm_compute in a in change a with v
    end;
    first [ exact Hzero | apply Hacc ]
  | intros _; eexists; eexists; eexists;
    split; [reflexivity | vm_compute; reflexivity] ].

Lemma uint_code_points d :
  exists cs,
    code_points (NilEmpty.string_of_uint d) = Some cs
    /\ (forall acc : positive,
          scan_digits cs false (Z.pos acc)
          = Some (Z.pos (Pos.of_uint_acc d acc), []))
    /\ scan_digits cs false 0 = Some (Z.of_N (Pos.of_uint d), [])
    /\ (d <> Decimal.Nil ->
        exists c r v, cs = c :: r /\ decimal c = Some v).
Proof.
  induction d as [ | d IH | d IH | d IH | d IH | d IH | d IH | d IH | d IH
                 | d IH | d IH]; [ | uint_step IH ..].
  exists []. repeat split; congruence.
Qed.

Lemma int_of_str_uint d :
  d <> Decimal.Nil ->
  int_of_str (NilEmpty.string_of_uint d) = Some (Z.of_N (Pos.of_uint d))
  /\ int_of_str (String "-" (NilEmpty.string_of_uint d))
     = Some (- Z.of_N (Pos.of_uint d)).
Proof.
  intros Hd. destruct (uint_code_points d) as [cs [Hc [_ [Hzero Hhead]]]].
  destruct (Hhead Hd) as [c [r [v [-> Hv]]]].
  pose proof (decimal_not_space _ _ Hv) as Hsp.
  destruct (decimal_not_sign _ _ Hv) as [Hplus Hminus].
  assert (Hp : parse_digits (c :: r) = Some (Z.of_N (Pos.of_uint d), [])).
  { unfold parse_digits. now rewrite Hv. }
  split.
  - unfold int_of_str. rewrite Hc. unfold int_of_code_points.
    cbn [lstrip]. rewrite Hsp. cbn [split_sign].
    destruct (N.eqb_spec c 43); [contradiction | ].
    destruct (N.eqb_spec c 45); [contradiction | ].
    now rewrite Hp.
  - unfold int_of_str.
    rewrite (code_points_ascii "-" _ _ (eq_refl true) Hc).
    unfold int_of_code_points. cbn [lstrip].
    change (is_space (N_of_ascii "-")) with false. cbv iota.
    change (split_sign (N_of_ascii "-" :: c :: r)) with (true, c :: r).
    cbv iota. now rewrite Hp.
Qed.

Lemma string_of_uint_nonnil d :
  d <> Decimal.Nil -> NilZero.string_of_uint d = NilEmpty.string_of_uint d.
Proof. destruct d; [congruence | ..]; reflexivity. Qed.

(** [int(str(z)) == z] for every integer [z]. *)
Lemma int_of_str_py_str z : int_of_str (py_str (VInt z)) = Some z.
Proof.
  destruct z as [ | p | p]; [reflexivity | | ];
    pose proof (DecimalPos.Unsigned.to_uint_nonnil p) as Hn;
    cbn [py_str Z.to_int NilZero.string_of_int];
    rewrite (string_of_uint_nonnil _ Hn).
  - rewrite (proj1 (int_of_str_uint _ Hn)), DecimalPos.Unsigned.of_to.
    reflexivity.
  - rewrite (proj2 (int_of_str_uint _ Hn)), DecimalPos.Unsigned.of_to.
    reflexivity.
Qed.

(** * Quantity mapping *)

Lemma stock_count_quantity_rule q c :
  stock_count q = Ok c <-> quantity_rule q c.
Proof.
  unfold stock_count, quantity_rule.
  destruct (String.eqb_spec (py_str q) ">10") as [E1 | E1].
  - split.
    + intros [= <-]. left. now split.
    + intros [[_ ->] | [[E2 _] | [E _]]]; [reflexivity | | contradiction].
      rewrite E1 in E2. discriminate.
  - destruct (String.eqb_spec (py_str q) "1") as [E2 | E2].
    + split.
      * intros [= <-]. right. left. now split.
      * intros [[E _] | [[_ ->] | [_ [E _]]]];
          [contradiction | reflexivity | contradiction].
    + split.
      * intros H. right. right. repeat split; assumption.
      * intros [[E _] | [[E _] | [_ [_ H]]]]; [contradiction .. | assumption].
Qed.

(** C5: the quantity rule maps the token [">10"] to 100 and the token ["1"]
    to 0; every other token goes to [int]: when its characters form a
    decimal literal (white space, an optional sign, digits, white space) the
    number written is returned, and when they do not, [ValueError] is
    raised.  The two special cases compare strings: the decimal writing of
    any integer other than 1 comes back as that integer, and tokens that
    merely denote 1 or exceed 10 (["01"], [" 1"], ["11"]) are not special. *)
Theorem stock_count_rules :
  (forall s cps,
      code_points s = Some cps ->
      (s = ">10" -> stock_count (VStr s) = Ok 100)
      /\ (s = "1" -> stock_count (VStr s) = Ok 0)
      /\ (s <> ">10" -> s <> "1" ->
          (forall z, stock_count (VStr s) = Ok z <-> int_literal cps z)
          /\ (stock_count (VStr s) = Err ValueError
              <-> forall z, ~ int_literal cps z)))
  /\ (forall z, z <> 1 -> stock_count (VStr (py_str (VInt z))) = Ok z)
  /\ stock_count (VStr ">10") = Ok 100
  /\ stock_count (VStr "1") = Ok 0
  /\ stock_count (VStr "7") = Ok 7
  /\ stock_count (VStr "abc") = Err ValueError
  /\ stock_count (VStr "11") = Ok 11
  /\ stock_count (VStr "01") = Ok 1
  /\ stock_count (VStr " 1") = Ok 1
  /\ stock_count (VStr "1_0") = Ok 10
  /\ stock_count (VStr "-5") = Ok (-5)
  /\ stock_count (VStr "٣") = Ok 3
  /\ stock_count (VStr "-٣") = Ok (-3)
  /\ stock_count (VStr (String (ascii_of_nat 194) (String (ascii_of_nat 160) "5")))
     = Ok 5
  /\ stock_count (VStr ">11") = Err ValueError
  /\ stock_count (VStr "12abc") = Err ValueError
  /\ stock_count (VStr "7 x") = Err ValueError
  /\ stock_count (VStr "1.0") = Err ValueError
  /\ stock_count (VStr "") = Err ValueError.
Proof.
  split; [ | split; [ | repeat split; vm_compute; reflexivity]].
  - intros s cps Hc.
    split; [intros ->; reflexivity | ].
    split; [intros ->; reflexivity | ].
    intros H1 H2.
    assert (Hs : stock_count (VStr s) = py_int (VStr s)).
    { unfold stock_count. cbn [py_str].
      destruct (String.eqb_spec s ">10"); [contradiction | ].
      destruct (String.eqb_spec s "1"); [contradiction | reflexivity]. }
    rewrite Hs. unfold py_int, int_of_str. rewrite Hc. split.
    + intros z. rewrite <- int_of_code_points_spec.
      destruct (int_of_code_points cps); split; congruence.
    + split.
      * intros H z Hz. apply int_of_code_points_spec in Hz.
        rewrite Hz in H. discriminate.
      * intros H. destruct (int_of_code_points cps) as [z | ] eqn:E;
          [ | reflexivity].
        apply int_of_code_points_spec in E. now apply H in E.
  - intros z Hz. unfold stock_count. cbn [py_str].
    pose proof (int_of_str_py_str z) as Hrt. cbn [py_str] in Hrt.
    destruct (String.eqb _ ">10") eqn:E1.
    + apply String.eqb_eq in E1. rewrite E1 in Hrt. discriminate.
    + destruct (String.eqb _ "1") eqn:E2.
      * apply String.eqb_eq in E2. rewrite E2 in Hrt.
        vm_compute in Hrt. congruence.
      * unfold py_int. now rewrite Hrt.
Qed.

Lemma stock_count_rules_witness :
  stock_count (VStr " 42") = Ok 42.
Proof.
  refine (proj2 (proj1 (proj2 (proj2 (proj1 stock_count_rules " 42"
                                             [32; 52; 50]%N eq_refl))
                              _ _) 42) _).
  - discriminate.
  - discriminate.
  - exact (int_literal_intro [32%N] [] false 52%N 4 [50%N] [2] []
             (Forall_cons 32%N (eq_refl true) (Forall_nil _)) sign_none
             (eq_refl (Some 4))
             (digit_tail_digit 50%N 2 [] [] (eq_refl (Some 2)) digit_tail_end)
             (Forall_nil _)).
Defined.

(** * Price conversion *)

Lemma is_digit_spec c :
  is_digit c = true <-> In c (list_ascii_of_string "0123456789").
Proof.
  destruct c as [[|] [|] [|] [|] [|] [|] [|] [|]]; vm_compute;
    (split; [intros H; try discriminate H; tauto | ]);
    intros H; try reflexivity;
    repeat (destruct H as [H | H]; [discriminate H | ]); destruct H.
Qed.

Lemma keep_digits_filter s :
  list_ascii_of_string (keep_digits s) = filter is_digit (list_ascii_of_string s).
Proof.
  induction s as [ | c s IH]; simpl; [reflexivity | ].
  destruct (is_digit c); simpl; now rewrite IH.
Qed.

Lemma before_dot_split price :
  exists rest,
    price = before_dot price ++ rest
    /\ ~ In "."%char (list_ascii_of_string (before_dot price))
    /\ (rest = "" \/ exists r, rest = String "." r).
Proof.
  induction price as [ | c s [rest [Hs [Hn Hr]]]]; simpl.
  - exists "". simpl. tauto.
  - unfold is_dot. destruct (Ascii.eqb c ".") eqn:E.
    + apply Ascii.eqb_eq in E. subst c. exists (String "." s). simpl.
      split; [reflexivity | ]. split; [tauto | ]. right. now exists s.
    + apply Ascii.eqb_neq in E. exists rest. simpl.
      split; [now rewrite <- Hs | ]. split; [ | assumption].
      intros [H | H]; [congruence | tauto].
Qed.

(** C6: [price_conversion] keeps the part of its argument before the first
    full stop and deletes from it every character that is not one of
    ['0'] .. ['9']; so its result holds ASCII digits only.  It turns
    ["5'990.00 руб."] into ["5990"] and the empty string into itself. *)
Theorem price_conversion_digits_before_dot :
  (forall price,
      (exists prefix rest,
          price = prefix ++ rest
          /\ ~ In "."%char (list_ascii_of_string prefix)
          /\ (rest = "" \/ exists r, rest = String "." r)
          /\ list_ascii_of_string (price_conversion price)
             = filter is_digit (list_ascii_of_string prefix))
      /\ Forall (fun c => In c (list_ascii_of_string "0123456789"))
                (list_ascii_of_string (price_conversion price)))
  /\ price_conversion "5'990.00 руб." = "5990"
  /\ price_conversion "" = "".
Proof.
  split; [ | split; reflexivity].
  intros price. split.
  - destruct (before_dot_split price) as [rest [Hs [Hn Hr]]].
    exists (before_dot price), rest.
    repeat split; try assumption. apply keep_digits_filter.
  - unfold price_conversion. rewrite keep_digits_filter.
    apply Forall_forall. intros c Hc. apply filter_In in Hc.
    now apply is_digit_spec.
Qed.

(** * The price list builder *)

Section PriceFacts.

Context {entry : Type}.
Variable price_entry : watch -> result entry.

Lemma prices_loop_acc feed (acc : list entry) ids :
  prices_loop price_entry feed acc ids
  = match prices_loop price_entry feed [] ids with
    | Ok m => Ok (acc ++ m)%list
    | Err e => Err e
    end.
Proof.
  revert acc. induction feed as [ | w feed IH]; intros acc; simpl.
  - now rewrite app_nil_r.
  - destruct (py_in (py_str (kod w)) ids); [ | apply IH].
    destruct (price_entry w) as [p | e]; simpl; [ | reflexivity].
    rewrite IH, (IH [p]).
    destruct (prices_loop price_entry feed [] ids); [ | reflexivity].
    now rewrite <- app_assoc.
Qed.

(** No row is matched: nothing is built and nothing can raise. *)
Lemma prices_loop_no_match feed (acc : list entry) ids :
  Forall (fun w => ~ In (sku w) ids) feed ->
  prices_loop price_entry feed acc ids = Ok acc.
Proof.
  induction 1 as [ | w feed Hw _ IH]; simpl; [reflexivity | ].
  fold (sku w). apply py_in_not_In in Hw. now rewrite Hw.
Qed.

(** Every listed row can be built: one entry per listed row. *)
Lemma create_prices_with_map (f : watch -> entry) feed ids :
  Forall (fun w => price_entry w = Ok (f w)) (listed_rows feed ids) ->
  create_prices_with price_entry feed ids = Ok (map f (listed_rows feed ids)).
Proof.
  unfold create_prices_with, listed_rows.
  induction feed as [ | w feed IH]; simpl; [reflexivity | ].
  fold (sku w). destruct (py_in (sku w) ids); [ | exact IH].
  intros Hall. inversion Hall as [ | ? ? Hw Hrest]; subst.
  rewrite Hw. simpl. rewrite prices_loop_acc, (IH Hrest). reflexivity.
Qed.

(** Some listed row raises [e], and no listed row raises anything else:
    the whole call raises [e]. *)
Lemma create_prices_with_raises e feed ids :
  Forall (fun w => price_entry w = Err e \/ exists p, price_entry w = Ok p)
         (listed_rows feed ids) ->
  Exists (fun w => price_entry w = Err e) (listed_rows feed ids) ->
  create_prices_with price_entry feed ids = Err e.
Proof.
  unfold create_prices_with, listed_rows.
  induction feed as [ | w feed IH]; simpl.
  - intros _ H. inversion H.
  - fold (sku w). destruct (py_in (sku w) ids); [ | exact IH].
    intros Hall Hex. inversion Hall as [ | ? ? Hw Hrest]; subst.
    destruct Hw as [Hw | [p Hw]]; rewrite Hw; simpl; [reflexivity | ].
    rewrite prices_loop_acc, IH; [reflexivity | assumption | ].
    inversion Hex as [? ? Hbad | ]; subst; [congruence | assumption].
Qed.

Section Ids.

Variable entry_id : entry -> string.
Hypothesis price_entry_id :
  forall w p, price_entry w = Ok p -> entry_id p = sku w.

(** The price list answers the listed rows, one by one and in feed order. *)
Lemma create_prices_with_ids feed ids prices :
  create_prices_with price_entry feed ids = Ok prices ->
  map entry_id prices = map sku (listed_rows feed ids).
Proof.
  unfold create_prices_with, listed_rows. revert prices.
  induction feed as [ | w feed IH]; intros prices; simpl.
  - now intros [= <-].
  - fold (sku w). destruct (py_in (sku w) ids); [ | apply IH].
    destruct (price_entry w) as [p | e] eqn:Ep; simpl; [ | discriminate].
    rewrite prices_loop_acc.
    destruct (prices_loop price_entry feed [] ids) as [m | e];
      [ | discriminate].
    intros [= <-]. simpl. now rewrite (price_entry_id _ _ Ep), (IH m).
Qed.

End Ids.

End PriceFacts.

Section StockIgnoresPrice.

Context {entry : Type}.
Variable stock_entry : string -> Z -> entry.

Lemma matched_phase_price_irrelevant feed feed' (acc : list entry) ids :
  map kod feed' = map kod feed ->
  map kolichestvo feed' = map kolichestvo feed ->
  matched_phase stock_entry feed' acc ids
  = matched_phase stock_entry feed acc ids.
Proof.
  revert feed' acc ids.
  induction feed as [ | w feed IH]; intros [ | w' feed'] acc ids;
    simpl; try discriminate; [reflexivity | ].
  intros [= Hk Hks] [= Hq Hqs]. rewrite Hk, Hq.
  destruct (py_in (py_str (kod w)) ids); [ | now apply IH].
  destruct (stock_count (kolichestvo w)); [ | reflexivity].
  now apply IH.
Qed.

Lemma create_stocks_with_price_irrelevant feed feed' ids :
  map kod feed' = map kod feed ->
  map kolichestvo feed' = map kolichestvo feed ->
  create_stocks_with stock_entry feed' ids
  = create_stocks_with stock_entry feed ids.
Proof.
  intros Hk Hq. unfold create_stocks_with.
  now rewrite (matched_phase_price_irrelevant feed feed').
Qed.

End StockIgnoresPrice.

Lemma seller_price_entry_id w p :
  Seller.price_entry w = Ok p -> Seller.Price.offer_id p = sku w.
Proof.
  unfold Seller.price_entry.
  destruct (price_conversion_value (tsena w)); simpl; [ | discriminate].
  now intros [= <-].
Qed.

Lemma market_price_entry_id w p :
  Market.price_entry w = Ok p -> Market.Price.id p = sku w.
Proof.
  unfold Market.price_entry.
  destruct (price_conversion_value (tsena w)) as [digits | ]; cbn [bind];
    [ | discriminate].
  destruct (py_int (VStr digits)); cbn [bind]; [ | discriminate].
  now intros [= <-].
Qed.

Lemma remaining_ids_NoDup_unpriced feed ids id :
  NoDup ids ->
  In id (remaining_ids feed ids) -> ~ In id (map sku (listed_rows feed ids)).
Proof.
  intros Hnd Hin Hl. rewrite (remaining_ids_NoDup_filter _ _ Hnd) in Hin.
  apply filter_In in Hin. destruct Hin as [_ Hin].
  apply negb_true_iff, py_in_not_In in Hin. apply Hin.
  apply in_map_iff in Hl. destruct Hl as [w [<- Hw]].
  apply in_map. unfold listed_rows in Hw. now apply filter_In in Hw.
Qed.

(** * Reconciliation: the claims on [create_prices] and on [main] *)

(** C2, where the code departs from the claim: the first row has an empty
    price and the second a good one.  Marketplace B raises and returns no
    list; marketplace A returns an update for both rows, the first with an
    empty price.  Neither returns the list holding the second row only. *)
Lemma create_prices_bad_price_not_skipped :
  Market.create_prices [row "1" "5" ""; row "2" "5" "10.00"] ["1"; "2"]
  = Err ValueError
  /\ Market.create_prices [row "1" "5" ""; row "2" "5" "10.00"] ["1"; "2"]
     <> Ok [Market.Price.mk "2" (Market.PriceValue.mk 10 "RUR")]
  /\ Seller.create_prices [row "1" "5" ""; row "2" "5" "10.00"] ["1"; "2"]
     = Ok [Seller.Price.mk "UNKNOWN" "RUB" "1" "0" "";
           Seller.Price.mk "UNKNOWN" "RUB" "2" "0" "10"]
  /\ Seller.create_prices [row "1" "5" ""; row "2" "5" "10.00"] ["1"; "2"]
     <> Ok [Seller.Price.mk "UNKNOWN" "RUB" "2" "0" "10"].
Proof.
  repeat split; try (vm_compute; reflexivity); vm_compute; discriminate.
Qed.

(** C2, amended: for a feed whose listed rows have string prices,
    [create_prices] of marketplace A returns one update per listed row, a
    row whose price converts to the empty string included; [create_prices]
    of marketplace B raises [ValueError], returning nothing, as soon as one
    listed row has such a price; and [create_stocks] does not depend on the
    price cells at all. *)
Theorem create_prices_bad_price_outcome :
  forall feed ids,
    Forall price_is_str (listed_rows feed ids) ->
    Seller.create_prices feed ids
    = Ok (map (fun w => Seller.Price.mk "UNKNOWN" "RUB" (sku w) "0"
                          (price_conversion (price_text w)))
              (listed_rows feed ids))
    /\ (Exists (fun w => price_conversion (price_text w) = "")
               (listed_rows feed ids) ->
        Market.create_prices feed ids = Err ValueError)
    /\ (forall feed',
          map kod feed' = map kod feed ->
          map kolichestvo feed' = map kolichestvo feed ->
          Seller.create_stocks feed' ids = Seller.create_stocks feed ids
          /\ forall date warehouse_id,
              Market.create_stocks date feed' ids warehouse_id
              = Market.create_stocks date feed ids warehouse_id).
Proof.
  intros feed ids Hstr. split; [ | split].
  - apply create_prices_with_map.
    eapply Forall_impl; [ | exact Hstr].
    intros w [s Hs]. unfold Seller.price_entry, price_text. now rewrite Hs.
  - intros Hbad. apply create_prices_with_raises.
    + eapply Forall_impl; [ | exact Hstr].
      intros w [s Hs]. unfold Market.price_entry. rewrite Hs. simpl.
      destruct (int_of_str (price_conversion s)); simpl; eauto.
    + rewrite Exists_exists in *. destruct Hbad as [w [Hin Hw]].
      exists w. split; [assumption | ].
      rewrite Forall_forall in Hstr. destruct (Hstr w Hin) as [s Hs].
      unfold Market.price_entry, price_text in *. rewrite Hs in *. simpl.
      now rewrite Hw.
  - intros feed' Hk Hq. split; [ | intros date wh];
      now apply create_stocks_with_price_irrelevant.
Qed.

Lemma create_prices_bad_price_outcome_witness :
  Market.create_prices [row "1" "5" ""; row "2" "5" "10.00"; row "3" "1" "x"]
                       ["1"; "2"]
  = Err ValueError.
Proof.
  refine (proj1 (proj2 (create_prices_bad_price_outcome
                          [row "1" "5" ""; row "2" "5" "10.00"; row "3" "1" "x"]
                          ["1"; "2"] _)) _).
  - simpl. repeat constructor; eexists; reflexivity.
  - simpl. apply Exists_cons_hd. reflexivity.
Defined.

(** * The synchronisation pass of marketplace A *)

Lemma remaining_ids_NoDup_unlisted feed ids :
  NoDup ids -> Forall (fun w => ~ In (sku w) (remaining_ids feed ids)) feed.
Proof.
  intros Hnd. rewrite (remaining_ids_NoDup_filter _ _ Hnd).
  apply Forall_forall. intros w Hw Hin. apply filter_In in Hin.
  destruct Hin as [_ Hin]. apply negb_true_iff, py_in_not_In in Hin.
  apply Hin, in_map, Hw.
Qed.

(** With distinct offer ids, the list [main] hands to [create_prices] holds
    none of the matched ids any more, and the price list comes out empty. *)
Lemma reconcile_prices_empty feed ids stocks r :
  NoDup ids ->
  Seller.create_stocks feed ids = (Ok stocks, r) ->
  Seller.reconcile feed ids = (Ok (stocks, []), r).
Proof.
  intros Hnd H. unfold Seller.reconcile. rewrite H.
  destruct (create_stocks_with_ok _ _ _ _ _ H) as [-> _].
  unfold Seller.create_prices, create_prices_with.
  rewrite prices_loop_no_match by now apply remaining_ids_NoDup_unlisted.
  reflexivity.
Qed.

(** So [main] never calls [update_price], whatever the feed. *)
Lemma main_sync_no_price_call update_stocks update_price feed ids :
  NoDup ids ->
  existsb is_update_price
          (Seller.main_sync update_stocks update_price feed ids) = false.
Proof.
  intros Hnd. unfold Seller.main_sync.
  destruct (Seller.create_stocks feed ids) as [[stocks | e] r] eqn:H;
    [ | reflexivity].
  pose proof (reconcile_prices_empty _ _ _ _ Hnd H) as Hrec.
  unfold Seller.reconcile in Hrec. rewrite H in Hrec.
  destruct (Seller.create_prices feed r) as [prices | e]; [ | discriminate].
  injection Hrec as ->.
  assert (Hs : forall sent, existsb is_update_price
                                    (map Seller.UpdateStocks sent) = false).
  { induction sent; simpl; auto. }
  destruct (dispatch update_stocks stocks 100) as [[u | e] sent]; [ | apply Hs].
  rewrite existsb_app, Hs. reflexivity.
Qed.

(** C1, on the code: a feed row for offer id ["123"], which is listed.  The
    pass of [main] builds its stock update and then no price update, and
    sends no price call; [upload_prices], which enumerates afresh, builds
    the price update for the same input. *)
Theorem main_builds_no_price_for_matched_id :
  Seller.reconcile [row "123" ">10" "1'000.00 руб."] ["123"; "456"]
  = (Ok ([Seller.Stock.mk "123" 100; Seller.Stock.mk "456" 0], []), ["456"])
  /\ Seller.main_sync (fun _ => Ok tt) (fun _ => Ok tt)
                      [row "123" ">10" "1'000.00 руб."] ["123"; "456"]
     = [Seller.UpdateStocks
          [Seller.Stock.mk "123" 100; Seller.Stock.mk "456" 0]]
  /\ Seller.upload_prices [row "123" ">10" "1'000.00 руб."] ["123"; "456"]
     = Ok [Seller.Price.mk "UNKNOWN" "RUB" "123" "0" "1000"].
Proof.
  split; [ | split].
  - apply reconcile_prices_empty.
    + repeat (constructor; [simpl; intuition discriminate | ]). constructor.
    + reflexivity.
  - reflexivity.
  - reflexivity.
Qed.

(** * The shape of the stock list *)

Section StockShape.

Context {entry : Type}.
Variable stock_entry : string -> Z -> entry.

(** The entries of the matched rows, written with their counts. *)
Lemma built_from_counts rows (m : list entry) :
  Forall2 (built_from stock_entry) rows m ->
  exists counts,
    Forall2 quantity_rule (map kolichestvo rows) counts
    /\ m = map (fun wc => stock_entry (sku (fst wc)) (snd wc))
               (combine rows counts).
Proof.
  induction 1 as [ | w s rows m [c [Hc ->]] _ [counts [HF ->]]].
  - exists []. split; [constructor | reflexivity].
  - exists (c :: counts). split; [ | reflexivity].
    constructor; [now apply stock_count_quantity_rule | assumption].
Qed.

Lemma create_stocks_with_shape feed ids stocks r :
  create_stocks_with stock_entry feed ids = (Ok stocks, r) ->
  r = remaining_ids feed ids
  /\ exists counts,
      Forall2 quantity_rule (map kolichestvo (matched_rows feed ids)) counts
      /\ stocks
         = (map (fun wc => stock_entry (sku (fst wc)) (snd wc))
                (combine (matched_rows feed ids) counts)
            ++ map (fun id => stock_entry id 0) r)%list.
Proof.
  intros H. apply create_stocks_with_ok in H. destruct H as [Hr [m [HF ->]]].
  split; [assumption | ].
  destruct (built_from_counts _ _ HF) as [counts [Hq ->]]. now exists counts.
Qed.

Lemma create_stocks_with_returns feed ids :
  (exists stocks, fst (create_stocks_with stock_entry feed ids) = Ok stocks)
  <-> Forall quantity_ok (matched_rows feed ids).
Proof.
  split.
  - intros [stocks H].
    destruct (create_stocks_with stock_entry feed ids) as [res r] eqn:E.
    simpl in H. subst res. apply create_stocks_with_ok in E.
    destruct E as [_ [m [HF _]]]. clear - HF.
    induction HF as [ | w s rows m [c [Hc _]] _ IH]; constructor;
      [now exists c | assumption].
  - intros Hall.
    destruct (create_stocks_with_total_rows stock_entry _ _ Hall) as [stocks H].
    exists stocks. now rewrite H.
Qed.

End StockShape.




(** The count of a quantity is negative exactly when [int] reads the
    quantity as a negative integer. *)
Lemma quantity_rule_nonneg q c :
  quantity_rule q c ->
  (0 <= c <-> forall z, py_int q = Ok z -> 0 <= z).
Proof.
  assert (Hint : forall z s, py_str (VInt z) = s -> int_of_str s = Some z).
  { intros z s <-. apply int_of_str_py_str. }
  intros [[Hs ->] | [[Hs ->] | [_ [_ Hc]]]].
  - split; [ | lia]. intros _ z Hz. destruct q as [ | s | z']; simpl in *.
    + discriminate.
    + subst s. discriminate.
    + apply Hint in Hs. discriminate.
  - split; [ | lia]. intros _ z Hz. destruct q as [ | s | z']; simpl in *.
    + discriminate.
    + subst s. vm_compute in Hz. injection Hz as <-. lia.
    + apply Hint in Hs. vm_compute in Hs. injection Hs as <-.
      injection Hz as <-. lia.
  - split.
    + intros Hpos z Hz. congruence.
    + intros H. now apply H.
Qed.

Lemma Forall2_combine_map {A B C : Type} (P : A -> B -> Prop) (f : A * B -> C)
      (Q : C -> Prop) (R : A -> Prop) rows counts :
  Forall2 P rows counts ->
  (forall a b, P a b -> (Q (f (a, b)) <-> R a)) ->
  (Forall Q (map f (combine rows counts)) <-> Forall R rows).
Proof.
  intros HF Hiff. induction HF as [ | a b rows counts Hab _ IH]; simpl.
  - split; constructor.
  - split; intros H; inversion H; subst; constructor;
      try (now apply IH); now apply (Hiff a b Hab).
Qed.

(** * Reconciliation: the claims on [create_stocks] *)




(** C4, where the code departs from the claim: a quantity written with a
    minus sign is accepted by [int] and goes into the update as it is. *)
Lemma create_stocks_negative_count :
  exists stocks r,
    Seller.create_stocks [row "1" "-5" "10.00"] ["1"] = (Ok stocks, r)
    /\ ~ Forall (fun s => 0 <= Seller.Stock.stock s) stocks.
Proof.
  eexists. eexists. split; [vm_compute; reflexivity | ].
  intros H. inversion H as [ | ? ? Hneg _]; subst. simpl in Hneg. lia.
Qed.

(** C4, amended: the list [create_stocks] returns holds, for each matched
    row, the count the quantity rule gives (100 for [">10"], 0 for ["1"],
    otherwise the integer [int] reads from the quantity) and then the count
    0 for each id left; so the counts are all non-negative exactly when
    [int] reads no matched row's quantity as a negative integer.  Both
    marketplaces. *)
Theorem create_stocks_counts_nonnegative :
  forall feed ids,
    (forall stocks r,
        Seller.create_stocks feed ids = (Ok stocks, r) ->
        (exists counts,
            Forall2 quantity_rule
                    (map kolichestvo (matched_rows feed ids)) counts
            /\ map Seller.Stock.stock stocks
               = (counts ++ map (fun _ => 0) r)%list)
        /\ (Forall (fun s => 0 <= Seller.Stock.stock s) stocks
            <-> Forall (fun w => forall z, py_int (kolichestvo w) = Ok z ->
                                           0 <= z)
                       (matched_rows feed ids)))
    /\ (forall date warehouse_id stocks r,
          Market.create_stocks date feed ids warehouse_id = (Ok stocks, r) ->
          (exists counts,
              Forall2 quantity_rule
                      (map kolichestvo (matched_rows feed ids)) counts
              /\ map Market.Stock.items stocks
                 = (map (fun c => [Market.Item.mk c "FIT" date]) counts
                    ++ map (fun _ => [Market.Item.mk 0 "FIT" date]) r)%list)
          /\ (Forall (fun s => Forall (fun i => 0 <= Market.Item.count i)
                                      (Market.Stock.items s)) stocks
              <-> Forall (fun w => forall z, py_int (kolichestvo w) = Ok z ->
                                             0 <= z)
                         (matched_rows feed ids))).
Proof.
  intros feed ids. split.
  - intros stocks r H. apply create_stocks_with_shape in H.
    destruct H as [_ [counts [Hq ->]]]. split.
    + exists counts. split; [assumption | ].
      rewrite map_app, !map_map. f_equal. cbn [Seller.stock_entry].
      clear - Hq. apply Forall2_length in Hq. rewrite length_map in Hq.
      revert counts Hq.
      induction (matched_rows feed ids) as [ | w rows IH]; intros [ | c counts];
        simpl; intros Hlen; try discriminate; [reflexivity | ].
      f_equal. apply IH. now injection Hlen.
    + rewrite Forall_app. split.
      * intros [Hm _]. revert Hm.
        apply (Forall2_combine_map
                 (fun w c => quantity_rule (kolichestvo w) c)).
        -- clear - Hq. revert counts Hq.
           induction (matched_rows feed ids) as [ | w rows IH];
             intros counts Hq; inversion Hq; subst; constructor; auto.
        -- intros w c Hwc. simpl. now apply quantity_rule_nonneg.
      * intros Hrows. split.
        -- revert Hrows.
           apply (Forall2_combine_map
                    (fun w c => quantity_rule (kolichestvo w) c)).
           ++ clear - Hq. revert counts Hq.
              induction (matched_rows feed ids) as [ | w rows IH];
                intros counts Hq; inversion Hq; subst; constructor; auto.
           ++ intros w c Hwc. simpl. now apply quantity_rule_nonneg.
        -- apply Forall_forall. intros s Hs. apply in_map_iff in Hs.
           destruct Hs as [id [<- _]]. simpl. lia.
  - intros date wh stocks r H. apply create_stocks_with_shape in H.
    destruct H as [_ [counts [Hq ->]]]. split.
    + exists counts. split; [assumption | ].
      rewrite map_app, !map_map. f_equal. cbn [Market.stock_entry].
      clear - Hq. apply Forall2_length in Hq. rewrite length_map in Hq.
      revert counts Hq.
      induction (matched_rows feed ids) as [ | w rows IH]; intros [ | c counts];
        simpl; intros Hlen; try discriminate; [reflexivity | ].
      f_equal. apply IH. now injection Hlen.
    + rewrite Forall_app. split.
      * intros [Hm _]. revert Hm.
        apply (Forall2_combine_map
                 (fun w c => quantity_rule (kolichestvo w) c)).
        -- clear - Hq. revert counts Hq.
           induction (matched_rows feed ids) as [ | w rows IH];
             intros counts Hq; inversion Hq; subst; constructor; auto.
        -- intros w c Hwc. simpl. rewrite <- (quantity_rule_nonneg _ _ Hwc).
           split; [now inversion 1 | intros; now repeat constructor].
      * intros Hrows. split.
        -- revert Hrows.
           apply (Forall2_combine_map
                    (fun w c => quantity_rule (kolichestvo w) c)).
           ++ clear - Hq. revert counts Hq.
              induction (matched_rows feed ids) as [ | w rows IH];
                intros counts Hq; inversion Hq; subst; constructor; auto.
           ++ intros w c Hwc. simpl. rewrite <- (quantity_rule_nonneg _ _ Hwc).
              split; [now inversion 1 | intros; now repeat constructor].
        -- apply Forall_forall. intros s Hs. apply in_map_iff in Hs.
           destruct Hs as [id [<- _]]. simpl.
           constructor; [simpl; lia | constructor].
Qed.

Lemma create_stocks_counts_nonnegative_witness :
  (exists counts,
      Forall2 quantity_rule [VStr ">10"; VStr "7"] counts
      /\ [100; 7; 0] = (counts ++ [0])%list)
  /\ (Forall (fun s => 0 <= Seller.Stock.stock s)
             [Seller.Stock.mk "123" 100; Seller.Stock.mk "7" 7;
              Seller.Stock.mk "456" 0]
      <-> Forall (fun w => forall z, py_int (kolichestvo w) = Ok z -> 0 <= z)
                 [row "123" ">10" "1'000.00"; row "7" "7" "5.00"]).
Proof.
  refine (proj1 (create_stocks_counts_nonnegative
                   [row "123" ">10" "1'000.00"; row "999" "-5" "1.00";
                    row "7" "7" "5.00"]
                   ["123"; "456"; "7"])
                [Seller.Stock.mk "123" 100; Seller.Stock.mk "7" 7;
                 Seller.Stock.mk "456" 0] ["456"] _).
  vm_compute. reflexivity.
Defined.

(** C7, where the code departs from the claim: an offer id enumerated
    twice.  The single feed row takes one copy; the other copy is left,
    gets its entry of count 0, and still has a price update, both in [main]
    and in [create_prices] on the enumerated list. *)
Lemma remaining_id_with_price :
  Seller.reconcile [row "123" ">10" "1'000.00"] ["123"; "123"]
  = (Ok ([Seller.Stock.mk "123" 100; Seller.Stock.mk "123" 0],
         [Seller.Price.mk "UNKNOWN" "RUB" "123" "0" "1000"]),
     ["123"])
  /\ Seller.create_prices [row "123" ">10" "1'000.00"] ["123"; "123"]
     = Ok [Seller.Price.mk "UNKNOWN" "RUB" "123" "0" "1000"]
  /\ ~ (forall id,
           In id (snd (Seller.create_stocks [row "123" ">10" "1'000.00"]
                                            ["123"; "123"])) ->
           ~ In id (map Seller.Price.offer_id
                        [Seller.Price.mk "UNKNOWN" "RUB" "123" "0" "1000"])).
Proof.
  split; [reflexivity | ]. split; [reflexivity | ].
  intros H. apply (H "123"); simpl; tauto.
Qed.

(** C7, amended: [create_stocks], for either marketplace and every list of
    offer ids, returns exactly when every row that gets matched has a
    convertible quantity, and the list it returns is the entries of the
    matched rows, in feed order, each with the sku of its row and the count
    of the quantity rule, followed by one entry of count 0 for each id left
    in [offer_ids], in the order of that list.  A price list answers feed
    rows only, one entry per row whose sku is listed; so for distinct offer
    ids there is no price for an id that is left. *)
Theorem create_stocks_matched_then_unmatched :
  forall feed ids,
    subseq (matched_rows feed ids) feed
    /\ (forall stocks r,
          Seller.create_stocks feed ids = (Ok stocks, r) ->
          r = remaining_ids feed ids
          /\ exists counts,
              Forall2 quantity_rule
                      (map kolichestvo (matched_rows feed ids)) counts
              /\ stocks
                 = (map (fun wc => Seller.Stock.mk (sku (fst wc)) (snd wc))
                        (combine (matched_rows feed ids) counts)
                    ++ map (fun id => Seller.Stock.mk id 0) r)%list)
    /\ (forall date warehouse_id stocks r,
          Market.create_stocks date feed ids warehouse_id = (Ok stocks, r) ->
          r = remaining_ids feed ids
          /\ exists counts,
              Forall2 quantity_rule
                      (map kolichestvo (matched_rows feed ids)) counts
              /\ stocks
                 = (map (fun wc => Market.Stock.mk
                                     (sku (fst wc)) warehouse_id
                                     [Market.Item.mk (snd wc) "FIT" date])
                        (combine (matched_rows feed ids) counts)
                    ++ map (fun id => Market.Stock.mk id warehouse_id
                                        [Market.Item.mk 0 "FIT" date]) r)%list)
    /\ ((exists stocks, fst (Seller.create_stocks feed ids) = Ok stocks)
        <-> Forall quantity_ok (matched_rows feed ids))
    /\ (forall date warehouse_id,
          (exists stocks,
              fst (Market.create_stocks date feed ids warehouse_id) = Ok stocks)
          <-> Forall quantity_ok (matched_rows feed ids))
    /\ (forall prices,
          Seller.create_prices feed ids = Ok prices ->
          map Seller.Price.offer_id prices = map sku (listed_rows feed ids))
    /\ (forall prices,
          Market.create_prices feed ids = Ok prices ->
          map Market.Price.id prices = map sku (listed_rows feed ids))
    /\ (NoDup ids ->
        forall id,
          In id (remaining_ids feed ids) ->
          ~ In id (map sku (listed_rows feed ids))).
Proof.
  intros feed ids. split; [apply matched_rows_subseq | ].
  split; [ | split; [ | split; [ | split; [ | split; [ | split]]]]].
  - intros stocks r H. now apply create_stocks_with_shape in H.
  - intros date wh stocks r H. now apply create_stocks_with_shape in H.
  - apply create_stocks_with_returns.
  - intros date wh. apply create_stocks_with_returns.
  - apply create_prices_with_ids, seller_price_entry_id.
  - apply create_prices_with_ids, market_price_entry_id.
  - intros Hnd id. now apply remaining_ids_NoDup_unpriced.
Qed.

Lemma create_stocks_matched_then_unmatched_witness :
  exists counts,
    Forall2 quantity_rule [VStr ">10"; VStr "7"] counts
    /\ [Seller.Stock.mk "123" 100; Seller.Stock.mk "7" 7; Seller.Stock.mk "456" 0]
       = (map (fun wc => Seller.Stock.mk (sku (fst wc)) (snd wc))
              (combine [row "123" ">10" "1'000.00"; row "7" "7" "5.00"] counts)
          ++ map (fun id => Seller.Stock.mk id 0) ["456"])%list.
Proof.
  refine (proj2 (proj1 (proj2 (create_stocks_matched_then_unmatched
                          [row "123" ">10" "1'000.00"; row "9" "x" "1.00";
                           row "7" "7" "5.00"]
                          ["123"; "456"; "7"]))
                       [Seller.Stock.mk "123" 100; Seller.Stock.mk "7" 7;
                        Seller.Stock.mk "456" 0] ["456"] _)).
  vm_compute. reflexivity.
Defined.



(** * Chunking and dispatch *)

Section DivideFacts.

Context {A : Type}.

(** The chunks, counted in [nat]: chunk [k] is [b] elements from position
    [k * b] on. *)
Lemma divide_chunks_nat (lst : list A) n :
  0 < n ->
  divide lst n
  = Ok (map (fun k => firstn (Z.to_nat n) (skipn (k * Z.to_nat n) lst))
            (seq 0 (range_len (Z.of_nat (List.length lst)) n))).
Proof.
  intros Hn. unfold divide, py_range.
  destruct (Z.leb_spec n 0) as [H | _]; [lia | ].
  rewrite map_map. f_equal. apply map_ext. intros k. unfold slice.
  f_equal; [f_equal; lia | f_equal].
  rewrite Z2Nat.inj_mul by lia. now rewrite Nat2Z.id.
Qed.

Lemma chunks_cons b m (lst : list A) :
  map (fun k => firstn b (skipn (k * b) lst)) (seq 0 (S m))
  = firstn b lst
      :: map (fun k => firstn b (skipn (k * b) (skipn b lst))) (seq 0 m).
Proof.
  cbn [seq map]. f_equal. rewrite <- seq_shift, map_map.
  apply map_ext. intros k. rewrite skipn_skipn. do 2 f_equal. lia.
Qed.

Lemma chunks_concat b m (lst : list A) :
  (List.length lst <= m * b)%nat ->
  List.concat (map (fun k => firstn b (skipn (k * b) lst)) (seq 0 m)) = lst.
Proof.
  revert lst. induction m as [ | m IH]; intros lst Hlen.
  - destruct lst; [reflexivity | simpl in Hlen; lia].
  - rewrite chunks_cons. cbn [List.concat]. rewrite IH.
    + apply firstn_skipn.
    + rewrite length_skipn. lia.
Qed.

Lemma chunks_nth b m (lst : list A) k chunk :
  nth_error (map (fun k => firstn b (skipn (k * b) lst)) (seq 0 m)) k
  = Some chunk ->
  (k < m)%nat
  /\ List.length chunk = Nat.min b (List.length lst - k * b).
Proof.
  intros H. rewrite nth_error_map in H.
  destruct (nth_error (seq 0 m) k) as [j | ] eqn:E; [ | discriminate].
  assert (Hk : (k < m)%nat).
  { rewrite <- (length_seq m 0). apply nth_error_Some. congruence. }
  rewrite nth_error_seq in E.
  destruct (Nat.ltb_spec k m) as [_ | Hge]; [ | lia].
  injection E as <-. injection H as <-.
  split; [assumption | ]. now rewrite length_firstn, length_skipn.
Qed.

Lemma submit_each_all_ok (submit : list A -> result unit) chunks :
  (forall c, submit c = Ok tt) -> submit_each submit chunks = (Ok tt, chunks).
Proof.
  intros Hok. induction chunks as [ | c chunks IH]; simpl; [reflexivity | ].
  now rewrite Hok, IH.
Qed.

End DivideFacts.

Lemma range_len_ceil len n :
  0 <= len -> 0 < n -> is_ceil_div (Z.of_nat (range_len len n)) len n.
Proof.
  intros Hlen Hn. unfold is_ceil_div, range_len.
  pose proof (Z.div_mod (len + n - 1) n ltac:(lia)) as Hdm.
  pose proof (Z.mod_pos_bound (len + n - 1) n Hn) as Hb.
  assert (Hq : 0 <= (len + n - 1) / n) by (apply Z.div_pos; lia).
  rewrite Z2Nat.id by assumption. nia.
Qed.

(** C8: for a positive [n], [divide] cuts a list of [N] elements into
    [ceil(N/n)] chunks whose concatenation is the list; every chunk but the
    last has [n] elements and the last has between 1 and [n].  The dispatch
    loop submits the chunks one by one, in order; for the empty list there
    is no chunk and no call. *)
Theorem divide_chunks :
  forall (A : Type) (lst : list A) (n : Z),
    0 < n ->
    exists chunks,
      divide lst n = Ok chunks
      /\ is_ceil_div (Z.of_nat (List.length chunks))
                     (Z.of_nat (List.length lst)) n
      /\ List.concat chunks = lst
      /\ (forall k chunk,
            nth_error chunks k = Some chunk ->
            (k + 1 < List.length chunks)%nat ->
            Z.of_nat (List.length chunk) = n)
      /\ (forall chunk,
            nth_error chunks (List.length chunks - 1) = Some chunk ->
            1 <= Z.of_nat (List.length chunk) <= n)
      /\ (forall submit,
            (forall c, submit c = Ok tt) ->
            dispatch submit lst n = (Ok tt, chunks))
      /\ (lst = [] ->
          chunks = [] /\ forall submit, dispatch submit lst n = (Ok tt, [])).
Proof.
  intros A lst n Hn.
  pose proof (range_len_ceil (Z.of_nat (List.length lst)) n ltac:(lia) Hn)
    as Hceil.
  pose proof (divide_chunks_nat lst n Hn) as Hdiv.
  set (m := range_len (Z.of_nat (List.length lst)) n) in *.
  set (b := Z.to_nat n) in *.
  assert (Hb : Z.of_nat b = n) by (subst b; lia).
  unfold is_ceil_div in Hceil. rewrite <- Hb in Hceil.
  eexists. split; [exact Hdiv | ].
  rewrite length_map, length_seq.
  split; [unfold is_ceil_div; rewrite <- Hb; exact Hceil | ].
  split; [apply chunks_concat; nia | ].
  split; [ | split; [ | split]].
  - intros k chunk Hk Hlt. apply chunks_nth in Hk. destruct Hk as [_ Hk].
    rewrite Hk, <- Hb. nia.
  - intros chunk Hk. apply chunks_nth in Hk. destruct Hk as [Hlt Hk].
    rewrite Hk, <- Hb. nia.
  - intros submit Hok. unfold dispatch. rewrite Hdiv.
    now apply submit_each_all_ok.
  - intros ->. simpl in Hceil.
    assert (Hm : m = O) by nia. rewrite Hm in *.
    split; [reflexivity | ]. intros submit. unfold dispatch. now rewrite Hdiv.
Qed.

Lemma divide_chunks_witness :
  exists chunks,
    divide [1; 2; 3; 4; 5] 2 = Ok chunks
    /\ is_ceil_div (Z.of_nat (List.length chunks)) 5 2
    /\ List.concat chunks = [1; 2; 3; 4; 5].
Proof.
  destruct (divide_chunks Z [1; 2; 3; 4; 5] 2 ltac:(lia))
    as [chunks [H1 [H2 [H3 _]]]].
  exists chunks. exact (conj H1 (conj H2 H3)).
Defined.

(** * Paged enumeration *)

Section SellerEnumeration.

Context {remote : Type}.
Variable get_product_list : string -> remote -> result Seller.Page.t * remote.

Lemma seller_loop_serves last_id seen r pages :
  Seller.serves get_product_list last_id seen r pages ->
  forall product_list,
    List.length product_list = seen ->
    (forall fuel,
        (List.length pages <= fuel)%nat ->
        Seller.get_offer_ids_loop get_product_list fuel last_id product_list r
        = Some (Ok (product_list
                      ++ List.concat (map Seller.Page.items pages))%list))
    /\ (forall fuel,
          (fuel < List.length pages)%nat ->
          Seller.get_offer_ids_loop get_product_list fuel last_id product_list r
          = None).
Proof.
  induction 1 as [last_id seen r p r' Hget Htot
                 | last_id seen r p r' pages Hget Htot _ IH];
    intros acc Hacc; split; intros fuel Hfuel;
    (destruct fuel as [ | fuel]; [simpl in Hfuel; try lia; reflexivity | ]);
    cbn [Seller.get_offer_ids_loop]; rewrite Hget, length_app, Hacc.
  - rewrite Htot, Z.eqb_refl. cbn [map List.concat]. now rewrite app_nil_r.
  - simpl in Hfuel. lia.
  - destruct (Z.eqb_spec (Seller.Page.total p)
                         (Z.of_nat (seen + List.length (Seller.Page.items p))))
      as [E | _]; [contradiction | ].
    destruct (IH (acc ++ Seller.Page.items p)%list) as [Hdone _].
    { now rewrite length_app, Hacc. }
    rewrite Hdone by (simpl in Hfuel; lia).
    cbn [map List.concat]. now rewrite app_assoc.
  - destruct (Z.eqb_spec (Seller.Page.total p)
                         (Z.of_nat (seen + List.length (Seller.Page.items p))))
      as [E | _]; [contradiction | ].
    destruct (IH (acc ++ Seller.Page.items p)%list) as [_ Hmore].
    { now rewrite length_app, Hacc. }
    apply Hmore. simpl in Hfuel. lia.
Qed.

End SellerEnumeration.

Section MarketEnumeration.

Context {remote : Type}.
Variable get_product_list
  : option string -> remote -> result Market.Page.t * remote.

Lemma market_loop_serves page r pages :
  Market.serves get_product_list page r pages ->
  forall product_list,
    (forall fuel,
        (List.length pages <= fuel)%nat ->
        Market.get_offer_ids_loop get_product_list fuel page product_list r
        = Some (Ok (product_list
                      ++ List.concat
                           (map Market.Page.offerMappingEntries pages))%list))
    /\ (forall fuel,
          (fuel < List.length pages)%nat ->
          Market.get_offer_ids_loop get_product_list fuel page product_list r
          = None).
Proof.
  induction 1 as [page r p r' Hget Hstop
                 | page r p r' pages Hget Hgo _ IH];
    intros acc; split; intros fuel Hfuel;
    (destruct fuel as [ | fuel]; [simpl in Hfuel; try lia; reflexivity | ]);
    cbn [Market.get_offer_ids_loop]; rewrite Hget; cbv zeta.
  - rewrite Hstop. cbn [map List.concat]. now rewrite app_nil_r.
  - simpl in Hfuel. lia.
  - rewrite Hgo.
    destruct (IH (acc ++ Market.Page.offerMappingEntries p)%list)
      as [Hdone _].
    rewrite Hdone by (simpl in Hfuel; lia).
    cbn [map List.concat]. now rewrite app_assoc.
  - rewrite Hgo.
    destruct (IH (acc ++ Market.Page.offerMappingEntries p)%list)
      as [_ Hmore].
    apply Hmore. simpl in Hfuel. lia.
Qed.

End MarketEnumeration.

(** C9: against a remote that follows the pagination protocol, answering
    the successive fetches with the pages [pages], [get_offer_ids] ends
    after exactly as many fetches as there are pages and returns the offer
    ids of these pages in order.  It goes on fetching as long as the stop
    test fails: marketplace A stops at the first page whose [total] equals
    the number of items collected, marketplace B at the first page whose
    [nextPageToken] is empty or absent. *)
Theorem get_offer_ids_terminates :
  (forall (remote : Type)
          (get_product_list : string -> remote -> result Seller.Page.t * remote)
          (r : remote) (pages : list Seller.Page.t),
      Seller.serves get_product_list "" 0 r pages ->
      (forall fuel,
          (List.length pages <= fuel)%nat ->
          Seller.get_offer_ids get_product_list fuel r
          = Some (Ok (Seller.page_ids pages)))
      /\ (forall fuel,
            (fuel < List.length pages)%nat ->
            Seller.get_offer_ids get_product_list fuel r = None))
  /\ (forall (remote : Type)
             (get_product_list
              : option string -> remote -> result Market.Page.t * remote)
             (r : remote) (pages : list Market.Page.t),
        Market.serves get_product_list (Some "") r pages ->
        (forall fuel,
            (List.length pages <= fuel)%nat ->
            Market.get_offer_ids get_product_list fuel r
            = Some (Ok (Market.page_ids pages)))
        /\ (forall fuel,
              (fuel < List.length pages)%nat ->
              Market.get_offer_ids get_product_list fuel r = None)).
Proof.
  split.
  - intros remote get r pages Hs.
    destruct (seller_loop_serves get _ _ _ _ Hs [] eq_refl) as [Hdone Hmore].
    unfold Seller.get_offer_ids.
    split; intros fuel Hfuel.
    + now rewrite (Hdone fuel Hfuel).
    + now rewrite (Hmore fuel Hfuel).
  - intros remote get r pages Hs.
    destruct (market_loop_serves get _ _ _ Hs []) as [Hdone Hmore].
    unfold Market.get_offer_ids.
    split; intros fuel Hfuel.
    + now rewrite (Hdone fuel Hfuel).
    + now rewrite (Hmore fuel Hfuel).
Qed.

Lemma get_offer_ids_terminates_witness :
  Seller.get_offer_ids seller_remote_example 5%nat tt = Some (Ok ["a"; "b"; "c"])
  /\ Market.get_offer_ids market_remote_example 5%nat tt
     = Some (Ok ["a"; "b"; "c"]).
Proof.
  split.
  - refine (proj1 (proj1 get_offer_ids_terminates unit seller_remote_example tt
                         seller_pages_example _) 5%nat _).
    + eapply Seller.serves_more; [reflexivity | vm_compute; discriminate | ].
      eapply Seller.serves_last; reflexivity.
    + simpl. lia.
  - refine (proj1 (proj2 get_offer_ids_terminates unit market_remote_example tt
                         market_pages_example _) 5%nat _).
    + eapply Market.serves_more; [reflexivity | reflexivity | ].
      eapply Market.serves_last; reflexivity.
    + simpl. lia.
Defined.

(** A remote that breaks the protocol of marketplace A, here by reporting a
    [total] its pages never add up to, keeps the loop fetching for ever. *)
Lemma get_offer_ids_stuck fuel :
  Seller.get_offer_ids
    (fun _ (r : unit) => (Ok (Seller.Page.mk [] 1 ""), r)) fuel tt = None.
Proof.
  unfold Seller.get_offer_ids.
  assert (H : forall last_id,
             Seller.get_offer_ids_loop
               (fun _ (r : unit) => (Ok (Seller.Page.mk [] 1 ""), r))
               fuel last_id [] tt = None).
  { induction fuel as [ | fuel IH]; intros last_id; [reflexivity | ].
    cbn. apply IH. }
  now rewrite H.
Qed.

(** * Further properties: conversions *)

(** X1: an integer cell goes through [str] and [int] unharmed: the integer
    1 counts as 0 and every other integer as itself; the 100 of the [">10"]
    marker arises from no integer cell. *)
Theorem stock_count_int_cell :
  forall z, stock_count (VInt z) = Ok (if z =? 1 then 0 else z).
Proof.
  intros z. unfold stock_count.
  pose proof (int_of_str_py_str z) as Hrt.
  destruct (String.eqb (py_str (VInt z)) ">10") eqn:E1.
  - apply String.eqb_eq in E1. rewrite E1 in Hrt. discriminate.
  - destruct (String.eqb (py_str (VInt z)) "1") eqn:E2.
    + apply String.eqb_eq in E2. rewrite E2 in Hrt. vm_compute in Hrt.
      injection Hrt as <-. reflexivity.
    + destruct (Z.eqb_spec z 1) as [-> | _]; [discriminate E2 | reflexivity].
Qed.

Lemma all_digits_before_dot s : all_digits s = true -> before_dot s = s.
Proof.
  induction s as [ | c s IH]; simpl; [reflexivity | ].
  intros H. apply andb_true_iff in H. destruct H as [Hc Hs].
  assert (Hd : is_dot c = false).
  { unfold is_dot. destruct (Ascii.eqb_spec c "."%char) as [-> | _];
      [discriminate Hc | reflexivity]. }
  now rewrite Hd, IH.
Qed.

Lemma all_digits_keep_digits s : all_digits s = true -> keep_digits s = s.
Proof.
  induction s as [ | c s IH]; simpl; [reflexivity | ].
  intros H. apply andb_true_iff in H. destruct H as [Hc Hs].
  now rewrite Hc, IH.
Qed.

Lemma keep_digits_all_digits s : all_digits (keep_digits s) = true.
Proof.
  induction s as [ | c s IH]; simpl; [reflexivity | ].
  destruct (is_digit c) eqn:E; [simpl; now rewrite E | assumption].
Qed.

Lemma price_conversion_all_digits price :
  all_digits (price_conversion price) = true.
Proof. apply keep_digits_all_digits. Qed.

(** X2: converting a converted price changes nothing. *)
Theorem price_conversion_idempotent :
  forall price,
    price_conversion (price_conversion price) = price_conversion price.
Proof.
  intros price. pose proof (price_conversion_all_digits price) as H.
  unfold price_conversion at 1.
  now rewrite (all_digits_before_dot _ H), (all_digits_keep_digits _ H).
Qed.

(** X3: [int] reads a converted price exactly when it is not empty, and
    then as a non-negative integer; on the empty one it raises
    [ValueError]. *)
Theorem price_conversion_int :
  forall price,
    (price_conversion price = "" /\
     py_int (VStr (price_conversion price)) = Err ValueError)
    \/ (price_conversion price <> "" /\
        exists v, py_int (VStr (price_conversion price)) = Ok v /\ 0 <= v).
Proof.
  intros price. pose proof (price_conversion_all_digits price) as H.
  destruct (price_conversion price) as [ | c r] eqn:E.
  - left. split; reflexivity.
  - right. split; [discriminate | ].
    destruct (int_of_str_all_digits c r H) as [v [Hv Hv0]].
    exists v. unfold py_int. now rewrite Hv.
Qed.

(** * Further properties: the price lists *)

Section PriceOutcomes.

Context {entry : Type}.
Variable price_entry : watch -> result entry.

Lemma create_prices_with_Forall2 feed ids prices :
  create_prices_with price_entry feed ids = Ok prices ->
  Forall2 (fun w p => price_entry w = Ok p) (listed_rows feed ids) prices.
Proof.
  unfold create_prices_with, listed_rows. revert prices.
  induction feed as [ | w feed IH]; intros prices; simpl.
  - intros [= <-]. constructor.
  - fold (sku w). destruct (py_in (sku w) ids); [ | apply IH].
    destruct (price_entry w) as [p | e] eqn:Ep; simpl; [ | discriminate].
    rewrite prices_loop_acc.
    destruct (prices_loop price_entry feed [] ids) as [m | e];
      [ | discriminate].
    intros [= <-]. constructor; [assumption | now apply IH].
Qed.

Lemma create_prices_with_Err feed ids e :
  create_prices_with price_entry feed ids = Err e ->
  Exists (fun w => price_entry w = Err e) (listed_rows feed ids).
Proof.
  unfold create_prices_with, listed_rows.
  induction feed as [ | w feed IH]; simpl; [discriminate | ].
  fold (sku w). destruct (py_in (sku w) ids); [ | apply IH].
  destruct (price_entry w) as [p | e'] eqn:Ep; simpl.
  - rewrite prices_loop_acc.
    destruct (prices_loop price_entry feed [] ids) as [m | e'];
      [discriminate | ].
    intros [= <-]. apply Exists_cons_tl. now apply IH.
  - intros [= <-]. now apply Exists_cons_hd.
Qed.

Lemma create_prices_with_returns feed ids :
  (exists prices, create_prices_with price_entry feed ids = Ok prices)
  <-> Forall (fun w => exists p, price_entry w = Ok p) (listed_rows feed ids).
Proof.
  split.
  - intros [prices H]. apply create_prices_with_Forall2 in H.
    induction H as [ | w p rows prices Hw _ IH]; constructor; eauto.
  - intros Hall.
    destruct (create_prices_with price_entry feed ids) as [prices | e] eqn:E;
      [now exists prices | ].
    apply create_prices_with_Err in E. apply Exists_exists in E.
    destruct E as [w [Hin Hw]]. rewrite Forall_forall in Hall.
    destruct (Hall w Hin) as [p Hp]. congruence.
Qed.

End PriceOutcomes.

Lemma market_price_entry_Ok w p :
  Market.price_entry w = Ok p ->
  price_has_digits w
  /\ 0 <= Market.PriceValue.value (Market.Price.price p)
  /\ Market.PriceValue.currencyId (Market.Price.price p) = "RUR".
Proof.
  unfold Market.price_entry, price_has_digits.
  destruct (tsena w) as [ | s | z]; cbn [price_conversion_value bind];
    try discriminate.
  destruct (price_conversion_int s) as [[He Hi] | [Hne [v [Hi Hv]]]];
    rewrite Hi; cbn [bind]; [discriminate | ].
  intros [= <-]. simpl. split; [ | split; [assumption | reflexivity]].
  now exists s.
Qed.

Lemma market_price_entry_returns w :
  (exists p, Market.price_entry w = Ok p) <-> price_has_digits w.
Proof.
  split.
  - intros [p Hp]. now apply market_price_entry_Ok in Hp.
  - intros [s [Hs Hne]]. unfold Market.price_entry. rewrite Hs.
    cbn [price_conversion_value bind].
    destruct (price_conversion_int s) as [[He _] | [_ [v [Hi _]]]];
      [contradiction | ].
    rewrite Hi. cbn [bind]. eauto.
Qed.

(** X4: every price [create_prices] of marketplace B returns has a
    non-negative value in the currency ["RUR"], and there is one per feed
    row whose sku is listed. *)
Theorem market_prices_nonnegative :
  forall feed ids prices,
    Market.create_prices feed ids = Ok prices ->
    Forall (fun p => 0 <= Market.PriceValue.value (Market.Price.price p)
                     /\ Market.PriceValue.currencyId (Market.Price.price p)
                        = "RUR") prices
    /\ List.length prices = List.length (listed_rows feed ids).
Proof.
  intros feed ids prices H. apply create_prices_with_Forall2 in H.
  split.
  - induction H as [ | w p rows prices Hw _ IH]; constructor; [ | assumption].
    now apply market_price_entry_Ok in Hw.
  - symmetry. eapply Forall2_length. exact H.
Qed.

Lemma market_prices_nonnegative_witness :
  Forall (fun p => 0 <= Market.PriceValue.value (Market.Price.price p)
                   /\ Market.PriceValue.currencyId (Market.Price.price p)
                      = "RUR")
         [Market.Price.mk "123" (Market.PriceValue.mk 5990 "RUR")].
Proof.
  refine (proj1 (market_prices_nonnegative
                   [row "123" ">10" "5'990.00 руб."; row "9" "1" ""]
                   ["123"; "456"] _ _)).
  reflexivity.
Defined.

(** X5: [create_prices] of marketplace B returns a list exactly when every
    feed row whose sku is listed has a string price with a digit before its
    first full stop; otherwise it raises [ValueError] or [AttributeError]. *)
Theorem market_create_prices_returns :
  forall feed ids,
    ((exists prices, Market.create_prices feed ids = Ok prices)
     <-> Forall price_has_digits (listed_rows feed ids))
    /\ (forall e, Market.create_prices feed ids = Err e ->
                  e = ValueError \/ e = AttributeError).
Proof.
  intros feed ids. split.
  - unfold Market.create_prices. rewrite create_prices_with_returns.
    split; intros H; (eapply Forall_impl; [ | exact H]); intros w;
      apply market_price_entry_returns.
  - intros e H. apply create_prices_with_Err in H. apply Exists_exists in H.
    destruct H as [w [_ Hw]]. unfold Market.price_entry in Hw.
    destruct (tsena w) as [ | s | z]; cbn [price_conversion_value bind] in Hw;
      try (injection Hw as <-; now right).
    unfold py_int in Hw. destruct (int_of_str (price_conversion s));
      cbn [bind] in Hw; [discriminate | ].
    injection Hw as <-. now left.
Qed.

Lemma seller_price_entry_Ok w p :
  Seller.price_entry w = Ok p ->
  price_is_str w
  /\ p = Seller.Price.mk "UNKNOWN" "RUB" (sku w) "0"
                         (price_conversion (price_text w)).
Proof.
  unfold Seller.price_entry, price_is_str, price_text.
  destruct (tsena w) as [ | s | z]; cbn [price_conversion_value bind];
    try discriminate.
  intros [= <-]. split; [now exists s | reflexivity].
Qed.

(** X6: [create_prices] of marketplace A fails only with [AttributeError],
    and exactly when some feed row whose sku is listed has a price cell
    that is not a string; every price it returns is a run of digits,
    possibly empty. *)
Theorem seller_create_prices_outcome :
  forall feed ids,
    ((exists prices, Seller.create_prices feed ids = Ok prices)
     <-> Forall price_is_str (listed_rows feed ids))
    /\ (forall e, Seller.create_prices feed ids = Err e -> e = AttributeError)
    /\ (forall prices,
          Seller.create_prices feed ids = Ok prices ->
          Forall (fun p => all_digits (Seller.Price.price p) = true) prices).
Proof.
  intros feed ids. split; [ | split].
  - unfold Seller.create_prices. rewrite create_prices_with_returns.
    split; intros H; (eapply Forall_impl; [ | exact H]); intros w.
    + intros [p Hp]. now apply seller_price_entry_Ok in Hp.
    + intros [s Hs]. unfold Seller.price_entry. rewrite Hs.
      cbn [price_conversion_value bind]. eauto.
  - intros e H. apply create_prices_with_Err in H. apply Exists_exists in H.
    destruct H as [w [_ Hw]]. unfold Seller.price_entry in Hw.
    destruct (tsena w) as [ | s | z]; cbn [price_conversion_value bind] in Hw;
      congruence.
  - intros prices H. apply create_prices_with_Forall2 in H.
    induction H as [ | w p rows prices Hw _ IH]; constructor; [ | assumption].
    apply seller_price_entry_Ok in Hw. destruct Hw as [_ ->]. simpl.
    apply price_conversion_all_digits.
Qed.

(** X7: when no feed row has a listed sku, in particular when [offer_ids]
    is empty, both [create_prices] return the empty list; no cell is
    converted, so nothing can raise. *)
Theorem create_prices_nothing_listed :
  forall feed ids,
    Forall (fun w => ~ In (sku w) ids) feed ->
    Seller.create_prices feed ids = Ok []
    /\ Market.create_prices feed ids = Ok [].
Proof.
  intros feed ids H. split; now apply prices_loop_no_match.
Qed.

Lemma create_prices_nothing_listed_witness :
  Seller.create_prices [row "999" "5" "1000.00 руб."; mkWatch VNone VNone VNone]
                       ["123"] = Ok []
  /\ Market.create_prices [row "999" "5" "1000.00 руб."; mkWatch VNone VNone VNone]
                          ["123"] = Ok [].
Proof.
  apply create_prices_nothing_listed.
  repeat constructor; simpl; intuition discriminate.
Defined.

(** * Further properties: the stock lists *)

(** X8: also when the enumeration holds an id more than once, the ids of the
    list [create_stocks] returns are the enumerated ids, each as often as it
    was enumerated. *)
Theorem create_stocks_permutation :
  forall feed ids,
    (forall stocks r,
        Seller.create_stocks feed ids = (Ok stocks, r) ->
        Permutation (map Seller.Stock.offer_id stocks) ids)
    /\ (forall date warehouse_id stocks r,
          Market.create_stocks date feed ids warehouse_id = (Ok stocks, r) ->
          Permutation (map Market.Stock.sku stocks) ids).
Proof.
  intros feed ids. split.
  - intros stocks r H. eapply create_stocks_with_perm; [ | exact H]. reflexivity.
  - intros date wh stocks r H.
    eapply create_stocks_with_perm; [ | exact H]. reflexivity.
Qed.

Lemma create_stocks_permutation_witness :
  Permutation
    (map Seller.Stock.offer_id
         [Seller.Stock.mk "a" 5; Seller.Stock.mk "b" 0; Seller.Stock.mk "a" 0])
    ["b"; "a"; "a"].
Proof.
  refine (proj1 (create_stocks_permutation [row "a" "5" "1.00"] ["b"; "a"; "a"])
                _ ["b"; "a"] _).
  reflexivity.
Defined.

(** X9: when [create_stocks] returns, an offer id stays in the caller's
    list as many times as it was enumerated more often than the feed has
    rows for it. *)
Theorem create_stocks_remaining_count :
  forall feed ids r id,
    (exists stocks, Seller.create_stocks feed ids = (Ok stocks, r))
    \/ (exists date warehouse_id stocks,
           Market.create_stocks date feed ids warehouse_id = (Ok stocks, r)) ->
    count_occ string_dec r id
    = (count_occ string_dec ids id
       - count_occ string_dec (map sku feed) id)%nat.
Proof.
  intros feed ids r id H.
  assert (Hr : r = remaining_ids feed ids).
  { destruct H as [[stocks H] | [date [wh [stocks H]]]];
      now apply create_stocks_with_ok in H. }
  subst r. apply remaining_ids_count.
Qed.

Lemma create_stocks_remaining_count_witness :
  count_occ string_dec ["b"; "a"] "a"
  = (count_occ string_dec ["a"; "b"; "a"; "a"] "a"
     - count_occ string_dec
         (map sku [row "a" "5" "1.00"; row "c" "2" "1.00"; row "a" "3" "1.00"])
         "a")%nat.
Proof.
  refine (create_stocks_remaining_count
            [row "a" "5" "1.00"; row "c" "2" "1.00"; row "a" "3" "1.00"]
            ["a"; "b"; "a"; "a"] ["b"; "a"] "a" _).
  left. eexists. vm_compute. reflexivity.
Defined.

(** X10: when the quantity of a row cannot be converted at the moment the
    row is matched, [create_stocks] raises the exception of [int], a
    [ValueError] or a [TypeError], and returns no list; the ids matched by
    the rows before it are already gone from the caller's [offer_ids], the
    id of the failing row is still there. *)
Theorem create_stocks_raises :
  forall l1 w l2 ids e,
    Forall quantity_ok (matched_rows l1 ids) ->
    In (sku w) (remaining_ids l1 ids) ->
    stock_count (kolichestvo w) = Err e ->
    Seller.create_stocks (l1 ++ w :: l2) ids = (Err e, remaining_ids l1 ids)
    /\ (forall date warehouse_id,
          Market.create_stocks date (l1 ++ w :: l2) ids warehouse_id
          = (Err e, remaining_ids l1 ids))
    /\ (e = ValueError \/ e = TypeError).
Proof.
  intros l1 w l2 ids e Hok Hin He. split; [ | split].
  - now apply create_stocks_with_raises.
  - intros date wh. now apply create_stocks_with_raises.
  - eapply stock_count_Err. exact He.
Qed.

Lemma create_stocks_raises_witness :
  Seller.create_stocks
    [row "1" "5" "1.00"; row "2" "abc" "1.00"; row "3" "4" "1.00"]
    ["3"; "2"; "1"]
  = (Err ValueError, ["3"; "2"]).
Proof.
  refine (proj1 (create_stocks_raises
                   [row "1" "5" "1.00"] (row "2" "abc" "1.00")
                   [row "3" "4" "1.00"] ["3"; "2"; "1"] ValueError _ _ _)).
  - simpl. repeat constructor. exists 5. reflexivity.
  - simpl. tauto.
  - reflexivity.
Defined.

(** X11: when no feed row has a listed sku, in particular for an empty feed
    or an empty enumeration, [create_stocks] returns one entry of count 0
    per offer id, in the order of the enumeration, and leaves [offer_ids]
    as it was; no quantity is converted, so nothing can raise. *)
Theorem create_stocks_nothing_listed :
  forall feed ids,
    Forall (fun w => ~ In (sku w) ids) feed ->
    Seller.create_stocks feed ids
    = (Ok (map (fun id => Seller.Stock.mk id 0) ids), ids)
    /\ (forall date warehouse_id,
          Market.create_stocks date feed ids warehouse_id
          = (Ok (map (fun id => Market.Stock.mk id warehouse_id
                                  [Market.Item.mk 0 "FIT" date]) ids), ids)).
Proof.
  intros feed ids H. split; [ | intros date wh];
    now apply create_stocks_with_nothing_listed.
Qed.

Lemma create_stocks_nothing_listed_witness :
  Seller.create_stocks [row "999" "abc" "1.00"; mkWatch VNone VNone VNone]
                       ["123"; "456"]
  = (Ok [Seller.Stock.mk "123" 0; Seller.Stock.mk "456" 0], ["123"; "456"]).
Proof.
  refine (proj1 (create_stocks_nothing_listed
                   [row "999" "abc" "1.00"; mkWatch VNone VNone VNone]
                   ["123"; "456"] _)).
  repeat constructor; simpl; intuition discriminate.
Defined.

Lemma list_remove_In_other x y l :
  y <> x -> (In y (list_remove x l) <-> In y l).
Proof.
  intros Hne. induction l as [ | z l IH]; simpl; [tauto | ].
  destruct (String.eqb_spec z x) as [-> | Hzx]; simpl.
  - split; [tauto | ]. intros [H | H]; [congruence | assumption].
  - now rewrite IH.
Qed.

Lemma listed_rows_list_remove x feed ids :
  ~ In x (map sku feed) ->
  listed_rows feed (list_remove x ids) = listed_rows feed ids.
Proof.
  intros Hx. unfold listed_rows. apply filter_ext_in. intros w Hw.
  assert (Hne : sku w <> x).
  { intros <-. apply Hx. now apply in_map. }
  destruct (py_in (sku w) ids) eqn:E.
  - apply py_in_In. apply py_in_In in E. now apply list_remove_In_other.
  - apply py_in_not_In. apply py_in_not_In in E.
    now rewrite list_remove_In_other.
Qed.

(** With distinct skus in the feed, the rows the first loop matches are all
    the rows whose sku is listed. *)
Lemma matched_rows_listed_rows feed ids :
  NoDup (map sku feed) -> matched_rows feed ids = listed_rows feed ids.
Proof.
  revert ids. induction feed as [ | w feed IH]; intros ids Hnd; simpl;
    [reflexivity | ].
  inversion Hnd as [ | ? ? Hw Hrest]; subst.
  destruct (py_in (sku w) ids); [ | now apply IH].
  f_equal. rewrite (IH _ Hrest). now apply listed_rows_list_remove.
Qed.

(** X12: for a feed with distinct skus, the stock list and the price list
    built from the same enumeration agree: the ids of the stock list are the
    ids of the price list, in the same order, followed by the ids left
    over. *)
Theorem stocks_follow_prices :
  forall feed ids,
    NoDup (map sku feed) ->
    (forall stocks r prices,
        Seller.create_stocks feed ids = (Ok stocks, r) ->
        Seller.create_prices feed ids = Ok prices ->
        map Seller.Stock.offer_id stocks
        = (map Seller.Price.offer_id prices ++ r)%list)
    /\ (forall date warehouse_id stocks r prices,
          Market.create_stocks date feed ids warehouse_id = (Ok stocks, r) ->
          Market.create_prices feed ids = Ok prices ->
          map Market.Stock.sku stocks
          = (map Market.Price.id prices ++ r)%list).
Proof.
  intros feed ids Hnd. split.
  - intros stocks r prices Hs Hp.
    rewrite (create_stocks_with_ids Seller.stock_entry Seller.Stock.offer_id
               (fun _ _ => eq_refl) _ _ _ _ Hs).
    rewrite (create_prices_with_ids _ _ seller_price_entry_id _ _ _ Hp).
    now rewrite matched_rows_listed_rows.
  - intros date wh stocks r prices Hs Hp.
    rewrite (create_stocks_with_ids (Market.stock_entry wh date)
               Market.Stock.sku (fun _ _ => eq_refl) _ _ _ _ Hs).
    rewrite (create_prices_with_ids _ _ market_price_entry_id _ _ _ Hp).
    now rewrite matched_rows_listed_rows.
Qed.

Lemma stocks_follow_prices_witness :
  map Seller.Stock.offer_id
      [Seller.Stock.mk "7" 7; Seller.Stock.mk "123" 100; Seller.Stock.mk "456" 0]
  = (map Seller.Price.offer_id
         [Seller.Price.mk "UNKNOWN" "RUB" "7" "0" "5";
          Seller.Price.mk "UNKNOWN" "RUB" "123" "0" "1000"]
     ++ ["456"])%list.
Proof.
  refine (proj1 (stocks_follow_prices
                   [row "7" "7" "5.00"; row "123" ">10" "1'000.00"]
                   ["123"; "456"; "7"] _) _ _ _ _ _).
  - repeat (constructor; [simpl; intuition discriminate | ]). constructor.
  - reflexivity.
  - reflexivity.
Defined.

(** * Further properties: chunking and dispatch *)

Lemma divide_Ok_bounds {A : Type} (lst : list A) n chunks :
  divide lst n = Ok chunks ->
  0 < n
  /\ Forall (fun chunk => 1 <= Z.of_nat (List.length chunk) <= n) chunks
  /\ List.concat chunks = lst.
Proof.
  intros H.
  assert (Hn : 0 < n).
  { unfold divide in H. destruct (Z.leb_spec n 0); [discriminate | lia]. }
  split; [assumption | ].
  rewrite (divide_chunks_nat lst n Hn) in H. injection H as <-.
  pose proof (range_len_ceil (Z.of_nat (List.length lst)) n ltac:(lia) Hn)
    as Hceil.
  unfold is_ceil_div in Hceil.
  set (m := range_len (Z.of_nat (List.length lst)) n) in *.
  set (b := Z.to_nat n) in *.
  assert (Hb : Z.of_nat b = n) by (subst b; lia).
  rewrite <- Hb in Hceil. split.
  - apply Forall_forall. intros chunk Hc. apply in_map_iff in Hc.
    destruct Hc as [k [<- Hk]]. apply in_seq in Hk.
    rewrite length_firstn, length_skipn, <- Hb. nia.
  - apply chunks_concat. nia.
Qed.



Lemma range_len_succ len n :
  0 <= len -> 0 < n -> range_len (len + n) n = S (range_len len n).
Proof.
  intros Hlen Hn. unfold range_len.
  replace (len + n + n - 1) with (len + n - 1 + 1 * n) by lia.
  rewrite Z.div_add by lia.
  assert (0 <= (len + n - 1) / n) by (apply Z.div_pos; lia).
  lia.
Qed.

(** X14: [divide] peels the list chunk by chunk: a list that starts with
    [n] elements gives these as its first chunk, followed by the chunks of
    the rest. *)
Theorem divide_app :
  forall (A : Type) (chunk rest : list A) (n : Z),
    0 < n ->
    Z.of_nat (List.length chunk) = n ->
    divide (chunk ++ rest) n
    = (chunks <- divide rest n ;; Ok (chunk :: chunks)).
Proof.
  intros A chunk rest n Hn Hlen.
  rewrite !divide_chunks_nat by assumption. cbn [bind].
  rewrite length_app, Nat2Z.inj_add, Z.add_comm, Hlen.
  rewrite range_len_succ by lia. rewrite chunks_cons.
  assert (Hb : Z.to_nat n = List.length chunk) by lia.
  rewrite Hb, firstn_app, Nat.sub_diag, firstn_all, skipn_app, Nat.sub_diag,
    skipn_all. cbn [firstn skipn]. now rewrite app_nil_r.
Qed.

Lemma divide_app_witness :
  divide ([1; 2] ++ [3; 4; 5]) 2
  = (chunks <- divide [3; 4; 5] 2 ;; Ok ([1; 2] :: chunks)).
Proof.
  apply divide_app; [lia | reflexivity].
Defined.

Lemma submit_each_Ok {A : Type} (submit : list A -> result unit) chunks u calls :
  submit_each submit chunks = (Ok u, calls) ->
  calls = chunks /\ Forall (fun c => exists v, submit c = Ok v) chunks.
Proof.
  revert calls. induction chunks as [ | c chunks IH]; intros calls; simpl.
  - intros [= _ <-]. split; [reflexivity | constructor].
  - destruct (submit c) as [v | e] eqn:Ec; [ | discriminate].
    destruct (submit_each submit chunks) as [[w | e] calls'] eqn:Er;
      [ | discriminate].
    intros [= <- <-]. destruct (IH _ eq_refl) as [-> HF].
    split; [reflexivity | ]. constructor; [now exists v | assumption].
Qed.

Lemma submit_each_Err {A : Type} (submit : list A -> result unit) chunks e calls :
  submit_each submit chunks = (Err e, calls) ->
  exists done bad rest,
    chunks = (done ++ bad :: rest)%list
    /\ calls = (done ++ [bad])%list
    /\ Forall (fun c => exists v, submit c = Ok v) done
    /\ submit bad = Err e.
Proof.
  revert calls. induction chunks as [ | c chunks IH]; intros calls; simpl;
    [discriminate | ].
  destruct (submit c) as [v | e'] eqn:Ec.
  - destruct (submit_each submit chunks) as [[w | e'] calls'] eqn:Er;
      [discriminate | ].
    intros [= <- <-].
    destruct (IH _ eq_refl) as [done [bad [rest [-> [-> [HF Hbad]]]]]].
    exists (c :: done), bad, rest. repeat split; try assumption.
    constructor; [now exists v | assumption].
  - intros [= <- <-]. exists [], c, chunks. repeat split; [constructor | assumption].
Qed.

(** X15: the dispatch loop calls [submit] on the chunks in order and stops
    at the first call that raises: the calls made are the chunks up to and
    including the failing one, every earlier call succeeded, and the
    exception is the one that call raised.  When the loop completes, every
    chunk was submitted once, and together they are the whole list. *)
Theorem dispatch_outcome :
  forall (A : Type) (submit : list A -> result unit) (lst : list A) (n : Z),
    0 < n ->
    (forall e calls,
        dispatch submit lst n = (Err e, calls) ->
        exists done bad rest,
          divide lst n = Ok (done ++ bad :: rest)%list
          /\ calls = (done ++ [bad])%list
          /\ Forall (fun c => exists v, submit c = Ok v) done
          /\ submit bad = Err e)
    /\ (forall u calls,
          dispatch submit lst n = (Ok u, calls) ->
          divide lst n = Ok calls
          /\ Forall (fun c => exists v, submit c = Ok v) calls
          /\ List.concat calls = lst).
Proof.
  intros A submit lst n Hn. unfold dispatch.
  destruct (divide lst n) as [chunks | e0] eqn:Ed.
  - split.
    + intros e calls H. apply submit_each_Err in H.
      destruct H as [done [bad [rest [-> [-> [HF Hbad]]]]]].
      exists done, bad, rest. repeat split; assumption.
    + intros u calls H. apply submit_each_Ok in H. destruct H as [-> HF].
      split; [reflexivity | ]. split; [assumption | ].
      now apply divide_Ok_bounds in Ed.
  - unfold divide in Ed. destruct (Z.leb_spec n 0); [lia | discriminate].
Qed.

Lemma dispatch_outcome_witness :
  exists done bad rest,
    divide [1; 2; 3; 4; 5] 2 = Ok (done ++ bad :: rest)%list
    /\ [[1; 2]; [3; 4]] = (done ++ [bad])%list
    /\ Forall (fun c => exists v, refuse_batch_3 c = Ok v) done
    /\ refuse_batch_3 bad = Err HTTPError.
Proof.
  refine (proj1 (dispatch_outcome Z refuse_batch_3 [1; 2; 3; 4; 5] 2 _)
                HTTPError [[1; 2]; [3; 4]] _).
  - lia.
  - reflexivity.
Defined.

(** * Further properties: paged enumeration *)

Section SellerRuns.

Context {remote : Type}.
Variable get_product_list : string -> remote -> result Seller.Page.t * remote.

Lemma seller_loop_Ok fuel last_id product_list r out :
  Seller.get_offer_ids_loop get_product_list fuel last_id product_list r
  = Some (Ok out) ->
  exists pages,
    Seller.serves get_product_list last_id (List.length product_list) r pages
    /\ out = (product_list ++ List.concat (map Seller.Page.items pages))%list
    /\ (List.length pages <= fuel)%nat.
Proof.
  revert last_id product_list r.
  induction fuel as [ | fuel IH]; intros last_id acc r; [discriminate | ].
  cbn [Seller.get_offer_ids_loop].
  destruct (get_product_list last_id r) as [[p | e] r'] eqn:Hget;
    [ | discriminate].
  destruct (Z.eqb_spec (Seller.Page.total p)
                       (Z.of_nat (List.length (acc ++ Seller.Page.items p))))
    as [Htot | Htot]; rewrite length_app in Htot.
  - intros [= <-]. exists [p]. split; [ | split].
    + eapply Seller.serves_last; eassumption.
    + cbn [map List.concat]. now rewrite app_nil_r.
    + simpl. lia.
  - intros H. apply IH in H. destruct H as [pages [Hs [-> Hlen]]].
    rewrite length_app in Hs.
    exists (p :: pages). split; [ | split].
    + eapply Seller.serves_more; eassumption.
    + cbn [map List.concat]. now rewrite app_assoc.
    + simpl. lia.
Qed.

Lemma seller_loop_Err fuel last_id product_list r e :
  Seller.get_offer_ids_loop get_product_list fuel last_id product_list r
  = Some (Err e) ->
  SellerPaths.breaks get_product_list last_id (List.length product_list) r e.
Proof.
  revert last_id product_list r.
  induction fuel as [ | fuel IH]; intros last_id acc r; [discriminate | ].
  cbn [Seller.get_offer_ids_loop].
  destruct (get_product_list last_id r) as [[p | e'] r'] eqn:Hget.
  - destruct (Z.eqb_spec (Seller.Page.total p)
                         (Z.of_nat (List.length (acc ++ Seller.Page.items p))))
      as [Htot | Htot]; [discriminate | ].
    rewrite length_app in Htot. intros H. apply IH in H.
    rewrite length_app in H. eapply SellerPaths.breaks_later; eassumption.
  - intros [= <-]. eapply SellerPaths.breaks_now; eassumption.
Qed.

Lemma seller_loop_breaks last_id seen r e :
  SellerPaths.breaks get_product_list last_id seen r e ->
  forall product_list,
    List.length product_list = seen ->
    exists n, forall fuel,
        (n <= fuel)%nat ->
        Seller.get_offer_ids_loop get_product_list fuel last_id product_list r
        = Some (Err e).
Proof.
  induction 1 as [last_id seen r e r' Hget
                 | last_id seen r p r' e Hget Htot _ IH]; intros acc Hacc.
  - exists 1%nat. intros [ | fuel] Hfuel; [lia | ].
    cbn [Seller.get_offer_ids_loop]. now rewrite Hget.
  - destruct (IH (acc ++ Seller.Page.items p)%list) as [n Hn].
    { now rewrite length_app, Hacc. }
    exists (S n). intros [ | fuel] Hfuel; [lia | ].
    cbn [Seller.get_offer_ids_loop]. rewrite Hget, length_app, Hacc.
    destruct (Z.eqb_spec (Seller.Page.total p)
                         (Z.of_nat (seen + List.length (Seller.Page.items p))))
      as [E | _]; [contradiction | ].
    apply Hn. lia.
Qed.

Lemma seller_serves_last_total last_id seen r pages :
  Seller.serves get_product_list last_id seen r pages ->
  exists front p,
    pages = (front ++ [p])%list
    /\ Seller.Page.total p
       = Z.of_nat (seen + List.length (List.concat (map Seller.Page.items pages))).
Proof.
  induction 1 as [last_id seen r p r' Hget Htot
                 | last_id seen r p r' pages Hget Htot _ IH].
  - exists [], p. split; [reflexivity | ].
    cbn [map List.concat]. now rewrite app_nil_r.
  - destruct IH as [front [q [-> Hq]]]. exists (p :: front), q.
    split; [reflexivity | ]. rewrite Hq. cbn [map List.concat].
    rewrite (length_app (Seller.Page.items p)). f_equal. lia.
Qed.

End SellerRuns.

Section MarketRuns.

Context {remote : Type}.
Variable get_product_list
  : option string -> remote -> result Market.Page.t * remote.

Lemma market_loop_Ok fuel page product_list r out :
  Market.get_offer_ids_loop get_product_list fuel page product_list r
  = Some (Ok out) ->
  exists pages,
    Market.serves get_product_list page r pages
    /\ out = (product_list
              ++ List.concat (map Market.Page.offerMappingEntries pages))%list
    /\ (List.length pages <= fuel)%nat.
Proof.
  revert page product_list r.
  induction fuel as [ | fuel IH]; intros page acc r; [discriminate | ].
  cbn [Market.get_offer_ids_loop].
  destruct (get_product_list page r) as [[p | e] r'] eqn:Hget;
    [ | discriminate].
  cbv zeta.
  destruct (Market.falsy (Market.Paging.nextPageToken (Market.Page.paging p)))
    eqn:Hstop.
  - intros [= <-]. exists [p]. split; [ | split].
    + eapply Market.serves_last; eassumption.
    + cbn [map List.concat]. now rewrite app_nil_r.
    + simpl. lia.
  - intros H. apply IH in H. destruct H as [pages [Hs [-> Hlen]]].
    exists (p :: pages). split; [ | split].
    + eapply Market.serves_more; eassumption.
    + cbn [map List.concat]. now rewrite app_assoc.
    + simpl. lia.
Qed.

Lemma market_loop_Err fuel page product_list r e :
  Market.get_offer_ids_loop get_product_list fuel page product_list r
  = Some (Err e) ->
  MarketPaths.breaks get_product_list page r e.
Proof.
  revert page product_list r.
  induction fuel as [ | fuel IH]; intros page acc r; [discriminate | ].
  cbn [Market.get_offer_ids_loop].
  destruct (get_product_list page r) as [[p | e'] r'] eqn:Hget.
  - cbv zeta.
    destruct (Market.falsy (Market.Paging.nextPageToken (Market.Page.paging p)))
      eqn:Hstop; [discriminate | ].
    intros H. apply IH in H. eapply MarketPaths.breaks_later; eassumption.
  - intros [= <-]. eapply MarketPaths.breaks_now; eassumption.
Qed.

Lemma market_loop_breaks page r e :
  MarketPaths.breaks get_product_list page r e ->
  forall product_list,
  exists n, forall fuel,
      (n <= fuel)%nat ->
      Market.get_offer_ids_loop get_product_list fuel page product_list r
      = Some (Err e).
Proof.
  induction 1 as [page r e r' Hget | page r p r' e Hget Hgo _ IH]; intros acc.
  - exists 1%nat. intros [ | fuel] Hfuel; [lia | ].
    cbn [Market.get_offer_ids_loop]. now rewrite Hget.
  - destruct (IH (acc ++ Market.Page.offerMappingEntries p)%list) as [n Hn].
    exists (S n). intros [ | fuel] Hfuel; [lia | ].
    cbn [Market.get_offer_ids_loop]. rewrite Hget. cbv zeta. rewrite Hgo.
    apply Hn. lia.
Qed.

End MarketRuns.

(** X16: [get_offer_ids] returns a list only at the end of a run that
    follows the pagination protocol, and the list is then the ids of all the
    pages of that run: it never returns a part of the catalogue. *)
Theorem get_offer_ids_returns_whole_run :
  (forall (remote : Type)
          (get_product_list : string -> remote -> result Seller.Page.t * remote)
          (fuel : nat) (r : remote) (ids : list string),
      Seller.get_offer_ids get_product_list fuel r = Some (Ok ids) ->
      exists pages,
        Seller.serves get_product_list "" 0 r pages
        /\ ids = Seller.page_ids pages
        /\ (List.length pages <= fuel)%nat)
  /\ (forall (remote : Type)
             (get_product_list
              : option string -> remote -> result Market.Page.t * remote)
             (fuel : nat) (r : remote) (ids : list string),
        Market.get_offer_ids get_product_list fuel r = Some (Ok ids) ->
        exists pages,
          Market.serves get_product_list (Some "") r pages
          /\ ids = Market.page_ids pages
          /\ (List.length pages <= fuel)%nat).
Proof.
  split; intros remote get fuel r ids H.
  - unfold Seller.get_offer_ids in H.
    destruct (Seller.get_offer_ids_loop get fuel "" [] r) as [[out | e] | ]
      eqn:E; try discriminate.
    injection H as <-. apply seller_loop_Ok in E.
    destruct E as [pages [Hs [-> Hlen]]]. now exists pages.
  - unfold Market.get_offer_ids in H.
    destruct (Market.get_offer_ids_loop get fuel (Some "") [] r)
      as [[out | e] | ] eqn:E; try discriminate.
    injection H as <-. apply market_loop_Ok in E.
    destruct E as [pages [Hs [-> Hlen]]]. now exists pages.
Qed.

Lemma get_offer_ids_returns_whole_run_witness :
  exists pages,
    Seller.serves seller_remote_example "" 0 tt pages
    /\ ["a"; "b"; "c"] = Seller.page_ids pages
    /\ (List.length pages <= 2)%nat.
Proof.
  refine (proj1 get_offer_ids_returns_whole_run unit seller_remote_example
                2%nat tt ["a"; "b"; "c"] _).
  reflexivity.
Defined.

(** X17: [get_offer_ids] raises exactly when a fetch raises before the stop
    test is met, and it raises the exception of that fetch; the pages
    collected until then are dropped. *)
Theorem get_offer_ids_raises :
  (forall (remote : Type)
          (get_product_list : string -> remote -> result Seller.Page.t * remote)
          (r : remote) (e : exn),
      SellerPaths.breaks get_product_list "" 0 r e
      <-> exists n, forall fuel,
            (n <= fuel)%nat ->
            Seller.get_offer_ids get_product_list fuel r = Some (Err e))
  /\ (forall (remote : Type)
             (get_product_list
              : option string -> remote -> result Market.Page.t * remote)
             (r : remote) (e : exn),
        MarketPaths.breaks get_product_list (Some "") r e
        <-> exists n, forall fuel,
              (n <= fuel)%nat ->
              Market.get_offer_ids get_product_list fuel r = Some (Err e)).
Proof.
  split; intros remote get r e; split.
  - intros H. destruct (seller_loop_breaks get _ _ _ _ H [] eq_refl) as [n Hn].
    exists n. intros fuel Hfuel. unfold Seller.get_offer_ids.
    now rewrite (Hn fuel Hfuel).
  - intros [n Hn]. specialize (Hn n (le_n n)).
    unfold Seller.get_offer_ids in Hn.
    destruct (Seller.get_offer_ids_loop get n "" [] r) as [[out | e'] | ]
      eqn:E; try discriminate.
    injection Hn as ->. now apply seller_loop_Err in E.
  - intros H. destruct (market_loop_breaks get _ _ _ H []) as [n Hn].
    exists n. intros fuel Hfuel. unfold Market.get_offer_ids.
    now rewrite (Hn fuel Hfuel).
  - intros [n Hn]. specialize (Hn n (le_n n)).
    unfold Market.get_offer_ids in Hn.
    destruct (Market.get_offer_ids_loop get n (Some "") [] r)
      as [[out | e'] | ] eqn:E; try discriminate.
    injection Hn as ->. now apply market_loop_Err in E.
Qed.

(** X18: the list [get_offer_ids] of marketplace A returns has exactly as
    many ids as the [total] reported by the last page fetched. *)
Theorem seller_get_offer_ids_total :
  forall (remote : Type)
         (get_product_list : string -> remote -> result Seller.Page.t * remote)
         (fuel : nat) (r : remote) (ids : list string),
    Seller.get_offer_ids get_product_list fuel r = Some (Ok ids) ->
    exists front some_prod,
      Seller.serves get_product_list "" 0 r (front ++ [some_prod])
      /\ Seller.Page.total some_prod = Z.of_nat (List.length ids).
Proof.
  intros remote get fuel r ids H.
  unfold Seller.get_offer_ids in H.
  destruct (Seller.get_offer_ids_loop get fuel "" [] r) as [[out | e] | ]
    eqn:E; try discriminate.
  injection H as <-. apply seller_loop_Ok in E.
  destruct E as [pages [Hs [-> _]]].
  destruct (seller_serves_last_total get _ _ _ _ Hs) as [front [p [-> Hp]]].
  exists front, p. split; [assumption | ].
  now rewrite Hp, length_map.
Qed.

Lemma seller_get_offer_ids_total_witness :
  exists front some_prod,
    Seller.serves seller_remote_example "" 0 tt (front ++ [some_prod])
    /\ Seller.Page.total some_prod = 3.
Proof.
  refine (seller_get_offer_ids_total unit seller_remote_example 2%nat tt
                                     ["a"; "b"; "c"] _).
  reflexivity.
Defined.

Lemma get_offer_ids_raises_witness :
  exists n, forall fuel,
      (n <= fuel)%nat ->
      Seller.get_offer_ids seller_remote_down fuel tt = Some (Err HTTPError).
Proof.
  refine (proj1 (proj1 get_offer_ids_raises unit seller_remote_down tt HTTPError)
                _).
  eapply SellerPaths.breaks_later; [reflexivity | vm_compute; discriminate | ].
  eapply SellerPaths.breaks_now. reflexivity.
Defined.

(** * Further properties: the upload paths and the entry points *)

Lemma dispatch_calls_bounds {A : Type} (submit : list A -> result unit)
      lst n res calls :
  dispatch submit lst n = (res, calls) ->
  Forall (fun chunk => 1 <= Z.of_nat (List.length chunk) <= n) calls.
Proof.
  unfold dispatch. destruct (divide lst n) as [chunks | e0] eqn:Ed.
  - apply divide_Ok_bounds in Ed. destruct Ed as [_ [Hb _]].
    destruct res as [u | e]; intros H.
    + apply submit_each_Ok in H. now destruct H as [-> _].
    + apply submit_each_Err in H.
      destruct H as [done [bad [rest [-> [-> _]]]]].
      apply Forall_app in Hb. destruct Hb as [Hd Hb].
      apply Forall_app. split; [assumption | ].
      constructor; [now inversion Hb | constructor].
  - intros [= _ <-]. constructor.
Qed.

Lemma dispatch_Ok_concat {A : Type} (submit : list A -> result unit)
      lst n u calls :
  dispatch submit lst n = (Ok u, calls) -> List.concat calls = lst.
Proof.
  unfold dispatch. destruct (divide lst n) as [chunks | e0] eqn:Ed;
    [ | discriminate].
  intros H. apply submit_each_Ok in H. destruct H as [-> _].
  now apply divide_Ok_bounds in Ed.
Qed.

Lemma dispatch_Err_source {A : Type} (submit : list A -> result unit)
      lst n e calls :
  0 < n ->
  dispatch submit lst n = (Err e, calls) ->
  exists bad, In bad calls /\ submit bad = Err e.
Proof.
  intros Hn. unfold dispatch.
  destruct (divide lst n) as [chunks | e0] eqn:Ed.
  - intros H. apply submit_each_Err in H.
    destruct H as [done [bad [rest [_ [-> [_ Hbad]]]]]].
    exists bad. split; [ | assumption]. apply in_or_app. right. now left.
  - unfold divide in Ed. destruct (Z.leb_spec n 0); [lia | discriminate].
Qed.

Section NotEmpty.

Context {entry : Type}.
Variable stock_entry : string -> Z -> entry.
Variable entry_id : entry -> string.
Variable not_empty : entry -> bool.
Hypothesis entry_id_mk : forall id c, entry_id (stock_entry id c) = id.
Hypothesis not_empty_zero : forall id, not_empty (stock_entry id 0) = false.

Lemma filter_subseq (l : list entry) : subseq (filter not_empty l) l.
Proof.
  induction l as [ | a l IH]; simpl; [constructor | ].
  destruct (not_empty a); now constructor.
Qed.

(** The entries that pass the filter come from rows of the feed. *)
Lemma create_stocks_with_not_empty feed ids stocks r :
  create_stocks_with stock_entry feed ids = (Ok stocks, r) ->
  Forall (fun s => In (entry_id s) (map sku feed)) (filter not_empty stocks).
Proof.
  intros H. apply create_stocks_with_ok in H. destruct H as [_ [m [HF ->]]].
  rewrite filter_app. apply Forall_app. split.
  - apply Forall_forall. intros s Hs. apply filter_In in Hs.
    destruct Hs as [Hs _].
    assert (Hid : In (entry_id s) (map entry_id m)) by now apply in_map.
    rewrite (built_from_ids stock_entry entry_id entry_id_mk _ _ HF) in Hid.
    apply in_map_iff in Hid. destruct Hid as [w [<- Hw]]. apply in_map.
    eapply subseq_In; [apply matched_rows_subseq | exact Hw].
  - apply Forall_forall. intros s Hs. apply filter_In in Hs.
    destruct Hs as [Hs Hne]. apply in_map_iff in Hs.
    destruct Hs as [id [<- _]]. now rewrite not_empty_zero in Hne.
Qed.

End NotEmpty.

(** X19: when [upload_stocks] returns [(not_empty, stocks)], the batches it
    sent are [stocks] cut in order; [not_empty] is [stocks] without the
    entries of count 0, the others in their order, and each of its entries
    answers a row of the feed, never an offer id the feed does not carry. *)
Theorem upload_stocks_not_empty :
  (forall update_stocks feed ids not_empty stocks calls,
      SellerPaths.upload_stocks update_stocks feed (Ok ids)
      = (Ok (not_empty, stocks), calls) ->
      List.concat calls = stocks
      /\ subseq not_empty stocks
      /\ Forall (fun s => Seller.Stock.stock s <> 0
                          /\ In (Seller.Stock.offer_id s) (map sku feed))
                not_empty
      /\ Forall (fun s => Seller.Stock.stock s = 0 \/ In s not_empty) stocks)
  /\ (forall update_stocks date feed ids warehouse_id not_empty stocks calls,
        MarketPaths.upload_stocks update_stocks date feed (Ok ids) warehouse_id
        = (Ok (not_empty, stocks), calls) ->
        List.concat calls = stocks
        /\ subseq not_empty stocks
        /\ Forall (fun s => MarketPaths.not_empty_stock s = true
                            /\ In (Market.Stock.sku s) (map sku feed))
                  not_empty
        /\ Forall (fun s => MarketPaths.not_empty_stock s = false
                            \/ In s not_empty) stocks).
Proof.
  split.
  - intros us feed ids not_empty stocks calls H.
    unfold SellerPaths.upload_stocks in H.
    destruct (Seller.create_stocks feed ids) as [[st | e] r] eqn:Es;
      cbn [fst] in H; [ | discriminate].
    destruct (dispatch us st 100) as [[u | e] sent] eqn:Ed; [ | discriminate].
    injection H as <- <- <-.
    split; [eapply dispatch_Ok_concat; eassumption | ].
    split; [apply filter_subseq | ]. split.
    + pose proof (create_stocks_with_not_empty Seller.stock_entry
                    Seller.Stock.offer_id SellerPaths.not_empty_stock
                    (fun _ _ => eq_refl) (fun _ => eq_refl) _ _ _ _ Es) as Hin.
      rewrite Forall_forall in *. intros s Hs. split; [ | now apply Hin].
      apply filter_In in Hs. destruct Hs as [_ Hs].
      unfold SellerPaths.not_empty_stock in Hs.
      destruct (Z.eqb_spec (Seller.Stock.stock s) 0); [discriminate | assumption].
    + apply Forall_forall. intros s Hs.
      destruct (Z.eq_dec (Seller.Stock.stock s) 0) as [Hz | Hz]; [now left | ].
      right. apply filter_In. split; [assumption | ].
      unfold SellerPaths.not_empty_stock.
      destruct (Z.eqb_spec (Seller.Stock.stock s) 0); [contradiction | reflexivity].
  - intros us date feed ids wh not_empty stocks calls H.
    unfold MarketPaths.upload_stocks in H.
    destruct (Market.create_stocks date feed ids wh) as [[st | e] r] eqn:Es;
      cbn [fst] in H; [ | discriminate].
    destruct (dispatch us st 2000) as [[u | e] sent] eqn:Ed; [ | discriminate].
    injection H as <- <- <-.
    split; [eapply dispatch_Ok_concat; eassumption | ].
    split; [apply filter_subseq | ]. split.
    + pose proof (create_stocks_with_not_empty (Market.stock_entry wh date)
                    Market.Stock.sku MarketPaths.not_empty_stock
                    (fun _ _ => eq_refl) (fun _ => eq_refl) _ _ _ _ Es) as Hin.
      rewrite Forall_forall in *. intros s Hs. split; [ | now apply Hin].
      apply filter_In in Hs. tauto.
    + apply Forall_forall. intros s Hs.
      destruct (MarketPaths.not_empty_stock s) eqn:E; [ | now left].
      right. apply filter_In. now split.
Qed.

Lemma upload_stocks_not_empty_witness :
  List.concat [[Seller.Stock.mk "7" 7; Seller.Stock.mk "1" 0;
                Seller.Stock.mk "456" 0]]
  = [Seller.Stock.mk "7" 7; Seller.Stock.mk "1" 0; Seller.Stock.mk "456" 0]
  /\ subseq [Seller.Stock.mk "7" 7]
            [Seller.Stock.mk "7" 7; Seller.Stock.mk "1" 0;
             Seller.Stock.mk "456" 0].
Proof.
  destruct (proj1 upload_stocks_not_empty (fun _ => Ok tt)
                  [row "7" "7" "5.00"; row "1" "1" "9.00"]
                  ["1"; "456"; "7"] [Seller.Stock.mk "7" 7]
                  [Seller.Stock.mk "7" 7; Seller.Stock.mk "1" 0;
                   Seller.Stock.mk "456" 0]
                  [[Seller.Stock.mk "7" 7; Seller.Stock.mk "1" 0;
                    Seller.Stock.mk "456" 0]] eq_refl) as [H1 [H2 _]].
  exact (conj H1 H2).
Defined.

(** X20: when [upload_prices] returns, it returns the list [create_prices]
    built from the enumerated ids, and the batches it sent are that list cut
    in order into non-empty batches of at most 1000 entries (marketplace A)
    or 500 (marketplace B).  When it raises after some call, the exception
    is the one of the last call made; when it raises without a call, the
    enumeration or [create_prices] raised. *)
Theorem upload_prices_outcome :
  (forall update_price feed enumerated,
      (forall prices calls,
          SellerPaths.upload_prices update_price feed enumerated
          = (Ok prices, calls) ->
          (exists ids, enumerated = Ok ids
                       /\ Seller.create_prices feed ids = Ok prices)
          /\ List.concat calls = prices
          /\ Forall (fun b => 1 <= Z.of_nat (List.length b) <= 1000) calls)
      /\ (forall e calls,
            SellerPaths.upload_prices update_price feed enumerated
            = (Err e, calls) ->
            (calls = []
             /\ (enumerated = Err e
                 \/ exists ids, enumerated = Ok ids
                                /\ Seller.create_prices feed ids = Err e))
            \/ exists bad, In bad calls /\ update_price bad = Err e))
  /\ (forall update_price feed enumerated,
        (forall prices calls,
            MarketPaths.upload_prices update_price feed enumerated
            = (Ok prices, calls) ->
            (exists ids, enumerated = Ok ids
                         /\ Market.create_prices feed ids = Ok prices)
            /\ List.concat calls = prices
            /\ Forall (fun b => 1 <= Z.of_nat (List.length b) <= 500) calls)
        /\ (forall e calls,
              MarketPaths.upload_prices update_price feed enumerated
              = (Err e, calls) ->
              (calls = []
               /\ (enumerated = Err e
                   \/ exists ids, enumerated = Ok ids
                                  /\ Market.create_prices feed ids = Err e))
              \/ exists bad, In bad calls /\ update_price bad = Err e)).
Proof.
  split; intros up feed enumerated; split.
  - intros prices calls H. unfold SellerPaths.upload_prices in H.
    destruct enumerated as [ids | e0]; [ | discriminate].
    destruct (Seller.create_prices feed ids) as [ps | e0] eqn:Ep;
      [ | discriminate].
    destruct (dispatch up ps 1000) as [[u | e0] sent] eqn:Ed; [ | discriminate].
    injection H as <- <-. split; [now exists ids | ].
    split; [eapply dispatch_Ok_concat | eapply dispatch_calls_bounds];
      eassumption.
  - intros e calls H. unfold SellerPaths.upload_prices in H.
    destruct enumerated as [ids | e0]; [ | injection H as <- <-; left; tauto].
    destruct (Seller.create_prices feed ids) as [ps | e0] eqn:Ep;
      [ | injection H as <- <-; left; split; [reflexivity | right; eauto]].
    destruct (dispatch up ps 1000) as [[u | e0] sent] eqn:Ed; [discriminate | ].
    injection H as <- <-. right.
    eapply dispatch_Err_source; [ | eassumption]. lia.
  - intros prices calls H. unfold MarketPaths.upload_prices in H.
    destruct enumerated as [ids | e0]; [ | discriminate].
    destruct (Market.create_prices feed ids) as [ps | e0] eqn:Ep;
      [ | discriminate].
    destruct (dispatch up ps 500) as [[u | e0] sent] eqn:Ed; [ | discriminate].
    injection H as <- <-. split; [now exists ids | ].
    split; [eapply dispatch_Ok_concat | eapply dispatch_calls_bounds];
      eassumption.
  - intros e calls H. unfold MarketPaths.upload_prices in H.
    destruct enumerated as [ids | e0]; [ | injection H as <- <-; left; tauto].
    destruct (Market.create_prices feed ids) as [ps | e0] eqn:Ep;
      [ | injection H as <- <-; left; split; [reflexivity | right; eauto]].
    destruct (dispatch up ps 500) as [[u | e0] sent] eqn:Ed; [discriminate | ].
    injection H as <- <-. right.
    eapply dispatch_Err_source; [ | eassumption]. lia.
Qed.

Lemma upload_prices_outcome_witness :
  List.concat [[Market.Price.mk "123" (Market.PriceValue.mk 1000 "RUR")]]
  = [Market.Price.mk "123" (Market.PriceValue.mk 1000 "RUR")].
Proof.
  refine (proj1 (proj2 (proj1 (proj2 upload_prices_outcome (fun _ => Ok tt)
                                     [row "123" ">10" "1'000.00 руб."]
                                     (Ok ["123"; "456"])) _ _ _))).
  reflexivity.
Defined.

Lemma Forall_map_call {A B : Type} (f : A -> B) (P : B -> Prop) l :
  Forall (fun a => P (f a)) l -> Forall P (map f l).
Proof. induction 1; simpl; constructor; assumption. Qed.

(** X21: every call [main] of marketplace A makes carries a non-empty batch
    of at most 100 stock entries or at most 900 prices, whatever the feed,
    the enumeration and the answers of the remote. *)
Theorem seller_main_batch_limits :
  forall update_stocks update_price feed ids,
    Forall (fun c => 1 <= SellerPaths.batch_size c <= SellerPaths.batch_limit c)
           (Seller.main_sync update_stocks update_price feed ids).
Proof.
  intros us up feed ids. unfold Seller.main_sync.
  destruct (Seller.create_stocks feed ids) as [[stocks | e] r]; [ | constructor].
  destruct (dispatch us stocks 100) as [res sent] eqn:Ed.
  assert (Hs : Forall (fun c => 1 <= SellerPaths.batch_size c
                                <= SellerPaths.batch_limit c)
                      (map Seller.UpdateStocks sent)).
  { apply Forall_map_call. simpl. eapply dispatch_calls_bounds. exact Ed. }
  destruct res as [u | e]; [ | assumption].
  apply Forall_app. split; [assumption | ].
  destruct (Seller.create_prices feed r) as [prices | e]; [ | constructor].
  apply Forall_map_call. simpl.
  destruct (dispatch up prices 900) as [res' sent'] eqn:Ed'. simpl.
  eapply dispatch_calls_bounds. exact Ed'.
Qed.

(** X22: for distinct offer ids, [main] of marketplace A makes stock calls
    only: the price list it builds from the list [create_stocks] has
    emptied is empty.  When the remote accepts every batch, the batches
    sent are the whole stock list, cut in order. *)
Theorem seller_main_stock_calls_only :
  forall update_stocks update_price feed ids,
    NoDup ids ->
    exists sent,
      Seller.main_sync update_stocks update_price feed ids
      = map Seller.UpdateStocks sent
      /\ (forall stocks r,
            Seller.create_stocks feed ids = (Ok stocks, r) ->
            (forall batch, update_stocks batch = Ok tt) ->
            List.concat sent = stocks).
Proof.
  intros us up feed ids Hnd. unfold Seller.main_sync.
  destruct (Seller.create_stocks feed ids) as [[stocks | e] r] eqn:H.
  - pose proof (reconcile_prices_empty _ _ _ _ Hnd H) as Hrec.
    unfold Seller.reconcile in Hrec. rewrite H in Hrec.
    destruct (Seller.create_prices feed r) as [prices | e]; [ | discriminate].
    injection Hrec as ->.
    destruct (dispatch us stocks 100) as [[u | e] sent] eqn:Ed;
      exists sent; (split; [ | intros stocks' r' [= <- <-] Hok]).
    + cbn. now rewrite app_nil_r.
    + eapply dispatch_Ok_concat. exact Ed.
    + reflexivity.
    + unfold dispatch in Ed.
      destruct (divide stocks 100) as [chunks | e0] eqn:Edv;
        [ | unfold divide in Edv; discriminate].
      rewrite (submit_each_all_ok _ _ Hok) in Ed. discriminate.
  - exists []. split; [reflexivity | discriminate].
Qed.

Lemma seller_main_stock_calls_only_witness :
  exists sent,
    Seller.main_sync (fun _ => Ok tt) (fun _ => Ok tt)
                     [row "123" ">10" "1'000.00 руб."] ["123"; "456"]
    = map Seller.UpdateStocks sent
    /\ (forall stocks r,
          Seller.create_stocks [row "123" ">10" "1'000.00 руб."] ["123"; "456"]
          = (Ok stocks, r) ->
          (forall batch : list Seller.Stock.t, (fun _ => Ok tt) batch = Ok tt) ->
          List.concat sent = stocks).
Proof.
  apply seller_main_stock_calls_only.
  repeat (constructor; [simpl; intuition discriminate | ]). constructor.
Defined.

Lemma campaign_sync_Ok update_stocks date feed enumerated warehouse_id u sent :
  MarketPaths.campaign_sync update_stocks date feed enumerated warehouse_id
  = (Ok u, sent) ->
  exists ids stocks r,
    enumerated = Ok ids
    /\ Market.create_stocks date feed ids warehouse_id = (Ok stocks, r)
    /\ List.concat sent = stocks
    /\ Forall (fun b => exists v, update_stocks b = Ok v) sent.
Proof.
  unfold MarketPaths.campaign_sync.
  destruct enumerated as [ids | e]; [ | discriminate].
  destruct (Market.create_stocks date feed ids warehouse_id)
    as [[stocks | e] r] eqn:Es; cbn [fst]; [ | discriminate].
  intros H. exists ids, stocks, r.
  split; [reflexivity | ]. split; [exact Es | ]. split.
  - eapply dispatch_Ok_concat. exact H.
  - unfold dispatch in H.
    destruct (divide stocks 2000); [ | discriminate].
    apply submit_each_Ok in H. destruct H as [-> HF]. exact HF.
Qed.

Lemma campaign_sync_bounds update_stocks date feed enumerated warehouse_id
      res sent :
  MarketPaths.campaign_sync update_stocks date feed enumerated warehouse_id
  = (res, sent) ->
  Forall (fun b => 1 <= Z.of_nat (List.length b) <= 2000) sent.
Proof.
  unfold MarketPaths.campaign_sync.
  destruct enumerated as [ids | e]; [ | intros [= _ <-]; constructor].
  destruct (fst (Market.create_stocks date feed ids warehouse_id));
    [ | intros [= _ <-]; constructor].
  apply dispatch_calls_bounds.
Qed.

(** X23: [main] of marketplace B makes stock calls for FBS first and for
    DBS after them, every batch holding between 1 and 2000 entries.  DBS
    is reached only when the FBS pass went through to its end, that is
    when the enumeration and [create_stocks] returned and every FBS batch
    was accepted; any exception on the FBS side leaves DBS without a
    call. *)
Theorem market_main_campaign_order :
  forall update_stocks date_fbs date_dbs feed enumerated_fbs enumerated_dbs
         warehouse_fbs_id warehouse_dbs_id,
  exists fbs dbs,
    MarketPaths.main_sync update_stocks date_fbs date_dbs feed
                          enumerated_fbs enumerated_dbs
                          warehouse_fbs_id warehouse_dbs_id
    = (map (MarketPaths.UpdateStocks MarketPaths.FBS) fbs
       ++ map (MarketPaths.UpdateStocks MarketPaths.DBS) dbs)%list
    /\ Forall (fun b => 1 <= Z.of_nat (List.length b) <= 2000) (fbs ++ dbs)
    /\ (dbs <> [] ->
        exists ids stocks r,
          enumerated_fbs = Ok ids
          /\ Market.create_stocks date_fbs feed ids warehouse_fbs_id
             = (Ok stocks, r)
          /\ List.concat fbs = stocks
          /\ Forall (fun b => exists v,
                         update_stocks MarketPaths.FBS b = Ok v) fbs).
Proof.
  intros us date_fbs date_dbs feed enum_fbs enum_dbs wh_fbs wh_dbs.
  unfold MarketPaths.main_sync.
  destruct (MarketPaths.campaign_sync (us MarketPaths.FBS) date_fbs feed
                                      enum_fbs wh_fbs)
    as [[u | e] fbs] eqn:Ef.
  - destruct (MarketPaths.campaign_sync (us MarketPaths.DBS) date_dbs feed
                                        enum_dbs wh_dbs)
      as [res dbs] eqn:Edb.
    exists fbs, dbs. cbn [snd]. split; [reflexivity | ]. split.
    + apply Forall_app. split; eapply campaign_sync_bounds; eassumption.
    + intros _. eapply campaign_sync_Ok. exact Ef.
  - exists fbs, []. cbn [map]. split; [now rewrite app_nil_r | ]. split.
    + rewrite app_nil_r. eapply campaign_sync_bounds. exact Ef.
    + congruence.
Qed.

(** X24: when both enumerations return, every matched row has a
    convertible quantity and the remote accepts every batch, [main] of
    marketplace B sends for each campaign batches that hold, together,
    exactly one stock entry per offer id enumerated for that campaign, all
    for the warehouse of the campaign; the feed serves both campaigns
    unchanged. *)
Theorem market_main_complete :
  forall update_stocks date_fbs date_dbs feed ids_fbs ids_dbs
         warehouse_fbs_id warehouse_dbs_id,
    (forall c batch, update_stocks c batch = Ok tt) ->
    Forall quantity_ok (matched_rows feed ids_fbs) ->
    Forall quantity_ok (matched_rows feed ids_dbs) ->
    exists fbs dbs,
      MarketPaths.main_sync update_stocks date_fbs date_dbs feed
                            (Ok ids_fbs) (Ok ids_dbs)
                            warehouse_fbs_id warehouse_dbs_id
      = (map (MarketPaths.UpdateStocks MarketPaths.FBS) fbs
         ++ map (MarketPaths.UpdateStocks MarketPaths.DBS) dbs)%list
      /\ Permutation (map Market.Stock.sku (List.concat fbs)) ids_fbs
      /\ Permutation (map Market.Stock.sku (List.concat dbs)) ids_dbs
      /\ Forall (fun s => Market.Stock.warehouseId s = warehouse_fbs_id)
                (List.concat fbs)
      /\ Forall (fun s => Market.Stock.warehouseId s = warehouse_dbs_id)
                (List.concat dbs).
Proof.
  intros us date_fbs date_dbs feed ids_f ids_d wh_f wh_d Hok Hf Hd.
  assert (Hcamp : forall c date ids wh,
             Forall quantity_ok (matched_rows feed ids) ->
             exists sent,
               MarketPaths.campaign_sync (us c) date feed (Ok ids) wh
               = (Ok tt, sent)
               /\ Permutation (map Market.Stock.sku (List.concat sent)) ids
               /\ Forall (fun s => Market.Stock.warehouseId s = wh)
                         (List.concat sent)).
  { intros c date ids wh Hq.
    destruct (create_stocks_with_total_rows (Market.stock_entry wh date) _ _ Hq)
      as [stocks Hs].
    unfold MarketPaths.campaign_sync, Market.create_stocks. rewrite Hs.
    cbn [fst]. unfold dispatch.
    destruct (divide stocks 2000) as [chunks | e] eqn:Ed.
    - rewrite (submit_each_all_ok _ _ (Hok c)). exists chunks.
      apply divide_Ok_bounds in Ed. destruct Ed as [_ [_ ->]].
      split; [reflexivity | ]. split.
      + eapply create_stocks_with_perm; [ | exact Hs]. reflexivity.
      + apply create_stocks_with_ok in Hs. destruct Hs as [_ [m [HF ->]]].
        apply Forall_app. split.
        * clear - HF. induction HF as [ | w s rows m [q [_ ->]] _ IH];
            constructor; [reflexivity | assumption].
        * apply Forall_forall. intros s Hs. apply in_map_iff in Hs.
          now destruct Hs as [id [<- _]].
    - unfold divide in Ed. discriminate. }
  destruct (Hcamp MarketPaths.FBS date_fbs ids_f wh_f Hf) as [fbs [Ef [Pf Wf]]].
  destruct (Hcamp MarketPaths.DBS date_dbs ids_d wh_d Hd) as [dbs [Edb [Pd Wd]]].
  exists fbs, dbs. unfold MarketPaths.main_sync. rewrite Ef, Edb.
  repeat split; assumption.
Qed.

Lemma market_main_complete_witness :
  exists fbs dbs,
    MarketPaths.main_sync (fun _ _ => Ok tt) "D1" "D2"
                          [row "123" ">10" "1'000.00"; row "7" "7" "5.00"]
                          (Ok ["123"; "456"]) (Ok ["7"]) "W1" "W2"
    = (map (MarketPaths.UpdateStocks MarketPaths.FBS) fbs
       ++ map (MarketPaths.UpdateStocks MarketPaths.DBS) dbs)%list
    /\ Permutation (map Market.Stock.sku (List.concat fbs)) ["123"; "456"]
    /\ Permutation (map Market.Stock.sku (List.concat dbs)) ["7"]
    /\ Forall (fun s => Market.Stock.warehouseId s = "W1") (List.concat fbs)
    /\ Forall (fun s => Market.Stock.warehouseId s = "W2") (List.concat dbs).
Proof.
  apply market_main_complete.
  - reflexivity.
  - simpl. repeat constructor. exists 100. reflexivity.
  - simpl. repeat constructor. exists 7. reflexivity.
Defined.
